(** * Voice CLI control: the command segmentation engine and the terminal
      session controller

    A shallow embedding of [voice_cli_control/voice_controller.py] and of the
    start/stop paths of [voice_cli_control/terminal_controller.py], with the
    properties of the specification stated over it.

    Modelling conventions.
    - A Python [str] is a [string]; the transcripts considered are ASCII
      text, so [str.lower] acts on the letters A-Z only and the regular
      expression classes are the ASCII ones.
    - A Python [dict] is an association list in insertion order with unique
      keys: assignment to a present key keeps its position, assignment to a
      new key appends, [del] removes.  Iteration order matters to the source
      (first-registered tie-break), so the order is part of the model.
    - An exception is a value of [exn]; a call that may raise returns
      [Exc A].  State changes made before a raise persist.
    - [time.time()] is an oracle: the n-th reading of the clock is
      [clock n], a rational number of seconds; differences of readings are
      exact, and the theorems use the silence test only where the readings
      are within the threshold or far beyond it. *)

From Stdlib Require Import String Ascii List Bool Arith PeanoNat Lia.
From Stdlib Require Import QArith.
Import ListNotations.
Local Open Scope string_scope.
Local Open Scope nat_scope.

(* ------------------------------------------------------------------ *)
(** ** Python string primitives *)

Module PyStr.

(** One character of [str.lower()]. *)
Definition lower_char (c : ascii) : ascii :=
  let n := nat_of_ascii c in
  if (65 <=? n) && (n <=? 90) then ascii_of_nat (n + 32) else c.

(** [s.lower()] *)
Fixpoint lower (s : string) : string :=
  match s with
  | EmptyString => EmptyString
  | String c r => String (lower_char c) (lower r)
  end.

(** [c.isspace()] on ASCII: TAB, LF, VT, FF, CR, FS, GS, RS, US, SPACE. *)
Definition isspace (c : ascii) : bool :=
  let n := nat_of_ascii c in
  ((9 <=? n) && (n <=? 13)) || ((28 <=? n) && (n <=? 32)).

Fixpoint lstrip (s : string) : string :=
  match s with
  | EmptyString => EmptyString
  | String c r => if isspace c then lstrip r else s
  end.

Fixpoint rstrip (s : string) : string :=
  match s with
  | EmptyString => EmptyString
  | String c r =>
      match rstrip r with
      | EmptyString => if isspace c then EmptyString else String c EmptyString
      | r' => String c r'
      end
  end.

(** [s.strip()] *)
Definition strip (s : string) : string := rstrip (lstrip s).

(** Truth value of a [str]: non-empty. *)
Definition truthy (s : string) : bool :=
  match s with EmptyString => false | _ => true end.

(** [s.startswith(p)] *)
Definition startswith (s p : string) : bool := String.prefix p s.

(** [s.endswith(p)] *)
Definition endswith (s p : string) : bool :=
  (String.length p <=? String.length s) &&
  String.eqb (substring (String.length s - String.length p) (String.length p) s) p.

(** [s[:n]] for [0 <= n]. *)
Definition take (n : nat) (s : string) : string := substring 0 n s.

(** [s[n:]] for [0 <= n]. *)
Definition drop (n : nat) (s : string) : string :=
  substring n (String.length s - n) s.

(** [s[:-k]] for [k >= 1]. *)
Definition drop_last (k : nat) (s : string) : string :=
  take (String.length s - k) s.

(** [c in s] for a character. *)
Fixpoint mem_char (c : ascii) (s : string) : bool :=
  match s with
  | EmptyString => false
  | String d r => Ascii.eqb c d || mem_char c r
  end.

End PyStr.

(* ------------------------------------------------------------------ *)
(** ** Python dict with string keys, in insertion order *)

Module PyDict.

Definition dict := list (string * string).

(** [d.get(k)] / [d[k]] *)
Fixpoint get (d : dict) (k : string) : option string :=
  match d with
  | [] => None
  | (k', v) :: r => if String.eqb k k' then Some v else get r k
  end.

(** [k in d] *)
Definition mem (d : dict) (k : string) : bool :=
  match get d k with Some _ => true | None => false end.

(** [d[k] = v]: a present key keeps its place, a new key goes last. *)
Fixpoint set (d : dict) (k v : string) : dict :=
  match d with
  | [] => [(k, v)]
  | (k', v') :: r =>
      if String.eqb k k' then (k', v) :: r else (k', v') :: set r k v
  end.

(** [del d[k]] for a present key (no effect otherwise). *)
Fixpoint del (d : dict) (k : string) : dict :=
  match d with
  | [] => []
  | (k', v') :: r => if String.eqb k k' then r else (k', v') :: del r k
  end.

Definition keys (d : dict) : list string := map fst d.

End PyDict.

(* ------------------------------------------------------------------ *)
(** ** Exceptions *)

Inductive exn : Type :=
| re_error (msg : string)
| OSError (msg : string)
| FileNotFoundError (msg : string)
| TimeoutExpired (seconds : nat).

Inductive Exc (A : Type) : Type :=
| ok (a : A)
| raise (e : exn).
Arguments ok {A} a.
Arguments raise {A} e.

Definition exc_bind {A B} (m : Exc A) (k : A -> Exc B) : Exc B :=
  match m with
  | ok a => k a
  | raise e => raise e
  end.

(* ------------------------------------------------------------------ *)
(** ** The fragment of [re] the controller uses *)

Module Re.
Import PyStr.

(** Does [re.escape(pat)], compiled with [re.IGNORECASE], match at the
    start of [s]?  The escaped pattern is a literal; every character is
    compared case-insensitively. *)
Fixpoint match_here (pat s : string) : bool :=
  match pat, s with
  | EmptyString, _ => true
  | String p pat', String c s' =>
      Ascii.eqb (lower_char p) (lower_char c) && match_here pat' s'
  | String _ _, EmptyString => false
  end.

(** [re.compile(re.escape(pat), re.IGNORECASE).search(s)]: the start of the
    leftmost match, if any. *)
Fixpoint search (pat s : string) : option nat :=
  if match_here pat s then Some 0
  else match s with
       | EmptyString => None
       | String _ s' => option_map S (search pat s')
       end.

(** [\w] on ASCII text. *)
Definition is_word (c : ascii) : bool :=
  let n := nat_of_ascii c in
  ((48 <=? n) && (n <=? 57)) || ((65 <=? n) && (n <=? 90))
  || ((97 <=? n) && (n <=? 122)) || (n =? 95).

Definition is_word_opt (c : option ascii) : bool :=
  match c with Some c => is_word c | None => false end.

(** [\b] between two neighbouring characters ([None]: edge of the text). *)
Definition boundary (before after : option ascii) : bool :=
  xorb (is_word_opt before) (is_word_opt after).

Definition head (s : string) : option ascii :=
  match s with EmptyString => None | String c _ => Some c end.

(** Does [\b + re.escape(pat) + \b] (IGNORECASE) match at the start of
    [s], the character before [s] being [prev]?  [pat] is not empty. *)
Definition word_match_here (pat : string) (prev : option ascii) (s : string) : bool :=
  let n := String.length pat in
  boundary prev (head s)
  && match_here pat s
  && boundary (String.get (n - 1) s) (String.get n s).

(** The scan of [Pattern.sub] for the pattern [\b + re.escape(pat) + \b]
    and an already compiled literal replacement: leftmost matches, not
    overlapping; [skip] counts the characters of the current match still
    to pass over. *)
Fixpoint sub_scan (pat repl : string) (prev : option ascii) (skip : nat)
         (s : string) : string :=
  match s with
  | EmptyString => EmptyString
  | String c r =>
      match skip with
      | S k => sub_scan pat repl (Some c) k r
      | O =>
          if word_match_here pat prev s
          then repl ++ sub_scan pat repl (Some c) (String.length pat - 1) r
          else String c (sub_scan pat repl (Some c) 0 r)
      end
  end.

(** Compilation of a replacement template.  A template without a backslash
    is taken literally.  Otherwise the template parser runs: a doubled
    backslash is one backslash, a backslash before a character that is
    neither a letter nor a digit stays with that character, and a
    backslash that ends the template raises [re.error].  Escapes made of a
    backslash and a letter or digit (group references, control
    characters) do not occur in the controller's tables; the model
    rejects them. *)
Fixpoint parse_template (t : string) : Exc string :=
  match t with
  | EmptyString => ok EmptyString
  | String c r =>
      if Ascii.eqb c "\"%char then
        match r with
        | EmptyString => raise (re_error "bad escape (end of pattern)")
        | String d r' =>
            if Ascii.eqb d "\"%char
            then exc_bind (parse_template r') (fun x => ok (String "\"%char x))
            else if is_word d && negb (Ascii.eqb d "_"%char)
            then raise (re_error "bad escape")
            else exc_bind (parse_template r')
                          (fun x => ok (String "\"%char (String d x)))
        end
      else exc_bind (parse_template r) (fun x => ok (String c x))
  end.

Definition compile_template (t : string) : Exc string :=
  if mem_char "\"%char t then parse_template t else ok t.

(** [re.compile(r'\b' + re.escape(pat) + r'\b', re.IGNORECASE).sub(repl, s)].
    The template is compiled before the text is searched, so a bad
    template raises whatever the text is. *)
Definition sub_word (pat repl s : string) : Exc string :=
  exc_bind (compile_template repl) (fun lit => ok (sub_scan pat lit None 0 s)).

End Re.

(* ------------------------------------------------------------------ *)
(** ** Voice commands and the class-level tables *)

Module Voice.
Import PyStr PyDict.

(** [class VoiceCommandType(Enum)] *)
Inductive VoiceCommandType : Type := TEXT | KEY | CONTROL | SYSTEM.

(** [@dataclass class VoiceCommand] *)
Record VoiceCommand : Type := mkVoiceCommand {
  type : VoiceCommandType;
  content : string;
  confidence : Q;
  timestamp : Q
}.

(** [VoiceCommand(t, c)]: the two defaults of the dataclass. *)
Definition VoiceCommand_ (t : VoiceCommandType) (c : string) : VoiceCommand :=
  mkVoiceCommand t c 1 0.


(** [VoiceController.VOICE_TRIGGERS] as the class statement creates it. *)
Definition VOICE_TRIGGERS : dict :=
  [ ("enter", "Enter");
    ("press enter", "Enter");
    ("hit enter", "Enter");
    ("return", "Enter");
    ("new line", "Enter");
    ("tab", "Tab");
    ("press tab", "Tab");
    ("backspace", "Backspace");
    ("delete", "Delete");
    ("escape", "Escape");
    ("press escape", "Escape");
    ("up arrow", "Up");
    ("down arrow", "Down");
    ("left arrow", "Left");
    ("right arrow", "Right");
    ("page up", "PageUp");
    ("page down", "PageDown");
    ("home", "Home");
    ("end", "End");
    ("control c", "Ctrl+C");
    ("control d", "Ctrl+D");
    ("control z", "Ctrl+Z");
    ("break", "Ctrl+C");
    ("exit", "Ctrl+D");
    ("stop", "Ctrl+C");
    ("start recording", "START_RECORDING");
    ("stop recording", "STOP_RECORDING");
    ("pause recording", "PAUSE_RECORDING");
    ("resume recording", "RESUME_RECORDING");
    ("clear terminal", "CLEAR");
    ("clear screen", "CLEAR") ].

(** The one-character string holding a double quote. *)
Definition dquote : string := String (ascii_of_nat 34) EmptyString.

(** [VoiceController.PUNCTUATION_MAP]; never assigned to after the class
    statement. *)
Definition PUNCTUATION_MAP : dict :=
  [ ("period", ".");
    ("dot", ".");
    ("comma", ",");
    ("question mark", "?");
    ("exclamation mark", "!");
    ("exclamation point", "!");
    ("colon", ":");
    ("semicolon", ";");
    ("quote", dquote);
    ("single quote", "'");
    ("apostrophe", "'");
    ("open parenthesis", "(");
    ("close parenthesis", ")");
    ("open bracket", "[");
    ("close bracket", "]");
    ("open brace", "{");
    ("close brace", "}");
    ("slash", "/");
    ("backslash", "\");
    ("pipe", "|");
    ("ampersand", "&");
    ("at sign", "@");
    ("hashtag", "#");
    ("dollar sign", "$");
    ("percent", "%");
    ("caret", "^");
    ("asterisk", "*");
    ("plus", "+");
    ("minus", "-");
    ("equals", "=");
    ("underscore", "_");
    ("tilde", "~");
    ("backtick", "`");
    ("less than", "<");
    ("greater than", ">");
    ("space", " ") ].

(* -------------------------------------------------------------- *)
(** *** Segmentation: the functions that only read the trigger table *)

(** The kind test of [_parse_transcription] for a whole-buffer trigger. *)
Definition kind_whole (key : string) : VoiceCommandType :=
  if startswith key "START_" || startswith key "STOP_" || startswith key "PAUSE_"
  then CONTROL else KEY.

(** The kind test of [_split_by_triggers] and [_check_for_triggers]. *)
Definition kind_inline (key : string) : VoiceCommandType :=
  if startswith key "START_" || startswith key "STOP_" then CONTROL else KEY.

(** The [for trigger, key in self.VOICE_TRIGGERS.items()] loop of
    [_split_by_triggers], on the triple
    [(earliest_pos, earliest_trigger, earliest_key)]. *)
Fixpoint earliest_loop (items : dict) (remaining : string)
         (acc : nat * option (string * string)) : nat * option (string * string) :=
  match items with
  | [] => acc
  | (trigger, key) :: rest =>
      match Re.search trigger remaining with
      | Some start =>
          if start <? fst acc
          then earliest_loop rest remaining (start, Some (trigger, key))
          else earliest_loop rest remaining acc
      | None => earliest_loop rest remaining acc
      end
  end.

(** A part returned by [_split_by_triggers]: a [str] or a [VoiceCommand]. *)
Definition part : Type := (string + VoiceCommand)%type.

(** The [while remaining:] loop of [_split_by_triggers].  Every turn that
    goes on removes a non-empty trigger from [remaining], so
    [S (length remaining)] turns are enough; see [split_loop_fuel]. *)
Fixpoint split_loop (T : dict) (fuel : nat) (remaining : string) : list part :=
  match fuel with
  | O => []
  | S fuel' =>
      if negb (truthy remaining) then []
      else
        match earliest_loop T remaining (String.length remaining, None) with
        | (earliest_pos, Some (earliest_trigger, earliest_key)) =>
            if truthy earliest_trigger then
              (if 0 <? earliest_pos
               then [inl (strip (take earliest_pos remaining))] else [])
              ++ [inr (VoiceCommand_ (kind_inline earliest_key) earliest_key)]
              ++ split_loop T fuel'
                   (strip (drop (earliest_pos + String.length earliest_trigger)
                                remaining))
            else [inl remaining]
        | (_, None) => [inl remaining]
        end
  end.

Definition _split_by_triggers (T : dict) (text : string) : list part :=
  split_loop T (S (String.length text)) text.

(** [_process_text] *)
Fixpoint punctuation_loop (items : dict) (text : string) : Exc string :=
  match items with
  | [] => ok text
  | (voice_cmd, symbol) :: rest =>
      exc_bind (Re.sub_word voice_cmd symbol text) (punctuation_loop rest)
  end.

Definition _process_text (text : string) : Exc string :=
  exc_bind (punctuation_loop PUNCTUATION_MAP text) (fun t => ok (strip t)).

(** The [for part in parts] loop of [_parse_transcription]. *)
Fixpoint parts_loop (parts : list part) (commands : list VoiceCommand)
  : Exc (list VoiceCommand) :=
  match parts with
  | [] => ok commands
  | inr cmd :: rest => parts_loop rest (commands ++ [cmd])%list
  | inl txt :: rest =>
      exc_bind (_process_text txt) (fun processed_text =>
        if truthy processed_text
        then parts_loop rest (commands ++ [VoiceCommand_ TEXT processed_text])%list
        else parts_loop rest commands)
  end.

(** [_parse_transcription] *)
Definition _parse_transcription (T : dict) (text : string) : Exc (list VoiceCommand) :=
  let text_lower := lower text in
  match get T text_lower with
  | Some key => ok [VoiceCommand_ (kind_whole key) key]
  | None => parts_loop (_split_by_triggers T text) []
  end.

(** The second loop of [_check_for_triggers]. *)
Fixpoint ending_loop (items : dict) (text text_lower : string) : option VoiceCommand :=
  match items with
  | [] => None
  | (trigger, key) :: rest =>
      if endswith text_lower (" " ++ trigger) then
        let text_before := strip (drop_last (String.length trigger + 1) text) in
        if truthy text_before then None
        else Some (VoiceCommand_ (kind_inline key) key)
      else ending_loop rest text text_lower
  end.

(** [_check_for_triggers] *)
Definition _check_for_triggers (T : dict) (text : string) : option VoiceCommand :=
  let text_lower := strip (lower text) in
  match get T text_lower with
  | Some key => Some (VoiceCommand_ (kind_inline key) key)
  | None => ending_loop T text text_lower
  end.

(** The trigger loop of [_should_process_buffer]. *)
Definition ends_with_trigger (T : dict) (buffer : string) : bool :=
  let buffer_lower := strip (lower buffer) in
  existsb (fun kv => endswith buffer_lower (fst kv)) T.

(* -------------------------------------------------------------- *)
(** *** The controller object and its methods *)

(** What the methods of an instance reach besides the instance itself:
    the dict object bound to the class attribute
    [VoiceController.VOICE_TRIGGERS], and the clock.  No method and no
    [__init__] ever assigns an instance attribute [VOICE_TRIGGERS], so
    [self.VOICE_TRIGGERS] always resolves to this one class-level dict. *)
Record Env : Type := mkEnv {
  triggers : dict;
  clock : nat -> Q;
  reads : nat
}.

(** The instance attributes set by [__init__] that the engine uses.
    [on_command_set] says whether a callback is installed;
    [on_command_calls] logs the commands handed to it, in order. *)
Record VoiceController : Type := mkVoiceController {
  is_recording : bool;
  is_paused : bool;
  on_command_set : bool;
  on_command_calls : list VoiceCommand;
  transcription_buffer : string;
  last_transcription_time : Q;
  silence_threshold : Q;
  command_history : list VoiceCommand;
  max_history : nat
}.

(** [__init__] *)
Definition init : VoiceController :=
  {| is_recording := false;
     is_paused := false;
     on_command_set := false;
     on_command_calls := [];
     transcription_buffer := EmptyString;
     last_transcription_time := 0;
     silence_threshold := 2;
     command_history := [];
     max_history := 100 |}.

Definition set_is_paused (b : bool) (c : VoiceController) : VoiceController :=
  mkVoiceController (is_recording c) b (on_command_set c) (on_command_calls c)
    (transcription_buffer c) (last_transcription_time c) (silence_threshold c)
    (command_history c) (max_history c).

Definition set_on_command (b : bool) (c : VoiceController) : VoiceController :=
  mkVoiceController (is_recording c) (is_paused c) b (on_command_calls c)
    (transcription_buffer c) (last_transcription_time c) (silence_threshold c)
    (command_history c) (max_history c).

Definition set_on_command_calls (l : list VoiceCommand) (c : VoiceController)
  : VoiceController :=
  mkVoiceController (is_recording c) (is_paused c) (on_command_set c) l
    (transcription_buffer c) (last_transcription_time c) (silence_threshold c)
    (command_history c) (max_history c).

Definition set_transcription_buffer (s : string) (c : VoiceController)
  : VoiceController :=
  mkVoiceController (is_recording c) (is_paused c) (on_command_set c)
    (on_command_calls c) s (last_transcription_time c) (silence_threshold c)
    (command_history c) (max_history c).

Definition set_last_transcription_time (t : Q) (c : VoiceController)
  : VoiceController :=
  mkVoiceController (is_recording c) (is_paused c) (on_command_set c)
    (on_command_calls c) (transcription_buffer c) t (silence_threshold c)
    (command_history c) (max_history c).

Definition set_command_history (h : list VoiceCommand) (c : VoiceController)
  : VoiceController :=
  mkVoiceController (is_recording c) (is_paused c) (on_command_set c)
    (on_command_calls c) (transcription_buffer c) (last_transcription_time c)
    (silence_threshold c) h (max_history c).

(** A method body: it runs on the class-level environment and on [self],
    and returns or raises. *)
Definition State : Type := (Env * VoiceController)%type.
Definition M (A : Type) : Type := State -> Exc A * State.

Definition ret {A} (a : A) : M A := fun s => (ok a, s).
Definition bind {A B} (m : M A) (k : A -> M B) : M B :=
  fun s => match m s with
           | (ok a, s') => k a s'
           | (raise e, s') => (raise e, s')
           end.
Definition lift {A} (r : Exc A) : M A := fun s => (r, s).
Definition self_ : M VoiceController := fun s => (ok (snd s), s).
Definition table_ : M dict := fun s => (ok (triggers (fst s)), s).
Definition update (f : VoiceController -> VoiceController) : M unit :=
  fun s => (ok tt, (fst s, f (snd s))).
Definition update_table (f : dict -> dict) : M unit :=
  fun s => (ok tt, (mkEnv (f (triggers (fst s))) (clock (fst s)) (reads (fst s)),
                    snd s)).

Local Notation "x <- m ;; k" := (bind m (fun x => k))
  (at level 61, m at next level, right associativity).
Local Notation "m ;;; k" := (bind m (fun _ => k))
  (at level 61, right associativity).

(** [time.time()] *)
Definition time_time : M Q :=
  fun s => (ok (clock (fst s) (reads (fst s))),
            (mkEnv (triggers (fst s)) (clock (fst s)) (S (reads (fst s))), snd s)).

(** [pause] and [resume] *)
Definition pause : M unit := update (set_is_paused true).
Definition resume : M unit := update (set_is_paused false).

(** [_handle_control_command] *)
Definition _handle_control_command (command : string) : M unit :=
  if String.eqb command "START_RECORDING" then resume
  else if String.eqb command "STOP_RECORDING" then pause
  else if String.eqb command "PAUSE_RECORDING" then pause
  else if String.eqb command "RESUME_RECORDING" then resume
  else ret tt.

(** [command_history.append(command)] followed by the eviction
    [if len(...) > max_history: pop(0)]. *)
Definition push_history (cmd : VoiceCommand) (c : VoiceController) : VoiceController :=
  let h := (command_history c ++ [cmd])%list in
  set_command_history (if max_history c <? List.length h then tl h else h) c.

(** [_execute_command] *)
Definition _execute_command (command : VoiceCommand) : M unit :=
  now <- time_time ;;
  let command := mkVoiceCommand (type command) (content command)
                                (confidence command) now in
  update (push_history command) ;;;
  c <- self_ ;;
  (if on_command_set c
   then update (set_on_command_calls (on_command_calls c ++ [command])%list)
   else ret tt) ;;;
  match type command with
  | CONTROL => _handle_control_command (content command)
  | _ => ret tt
  end.

(** [_should_process_buffer] *)
Definition _should_process_buffer : M bool :=
  now <- time_time ;;
  c <- self_ ;;
  if negb (Qle_bool (now - last_transcription_time c) (silence_threshold c))
  then ret true
  else (T <- table_ ;; ret (ends_with_trigger T (transcription_buffer c))).

(** The [for command in commands] loop of
    [_process_transcription_buffer]. *)
Fixpoint execute_all (commands : list VoiceCommand) : M unit :=
  match commands with
  | [] => ret tt
  | command :: rest => _execute_command command ;;; execute_all rest
  end.

(** [_process_transcription_buffer] *)
Definition _process_transcription_buffer : M unit :=
  c <- self_ ;;
  if negb (truthy (transcription_buffer c)) then ret tt
  else
    let buffer := strip (transcription_buffer c) in
    update (set_transcription_buffer EmptyString) ;;;
    T <- table_ ;;
    commands <- lift (_parse_transcription T buffer) ;;
    execute_all commands.

(** The right-hand side of the buffer update: what [+=] leaves in the
    buffer once the fragment is added. *)
Definition appended (c : VoiceController) (text : string) : string :=
  transcription_buffer c ++
  (if truthy (transcription_buffer c) then " " ++ text else text).

(** [_handle_transcription] *)
Definition _handle_transcription (text : string) (is_final : bool) : M unit :=
  c <- self_ ;;
  if is_paused c then ret tt
  else
    let text := strip text in
    if negb (truthy text) then ret tt
    else
      update (set_transcription_buffer (appended c text)) ;;;
      now <- time_time ;;
      update (set_last_transcription_time now) ;;;
      T <- table_ ;;
      match _check_for_triggers T text with
      | Some command =>
          _execute_command command ;;;
          update (set_transcription_buffer EmptyString)
      | None =>
          flush <- (if is_final then ret true else _should_process_buffer) ;;
          if (flush : bool) then _process_transcription_buffer else ret tt
      end.

(** Fragments delivered one after the other by the transcription client;
    the run ends at the first call that raises. *)
Fixpoint deliver (fragments : list (string * bool)) : M unit :=
  match fragments with
  | [] => ret tt
  | (text, is_final) :: rest => _handle_transcription text is_final ;;; deliver rest
  end.

(** [self._parse_transcription(text)] and [self._check_for_triggers(text)]
    as method calls: the table they read is the class-level one. *)
Definition self_parse_transcription (text : string) : M (list VoiceCommand) :=
  T <- table_ ;; lift (_parse_transcription T text).

Definition self_check_for_triggers (text : string) : M (option VoiceCommand) :=
  T <- table_ ;; ret (_check_for_triggers T text).

(** [add_custom_trigger] *)
Definition add_custom_trigger (phrase action : string) : M unit :=
  update_table (fun T => set T (lower phrase) action).

(** [remove_custom_trigger] *)
Definition remove_custom_trigger (phrase : string) : M unit :=
  let phrase_lower := lower phrase in
  update_table (fun T => if mem T phrase_lower then del T phrase_lower else T).

(** The [custom_triggers] entry computed by [save_settings]: the items of
    [self.VOICE_TRIGGERS] whose key is not in
    [self.__class__.VOICE_TRIGGERS]. *)
Definition saved_custom_triggers : M dict :=
  T <- table_ ;;
  ret (filter (fun kv => negb (mem T (fst kv))) T).

(* -------------------------------------------------------------- *)
(** *** Several controllers in one interpreter *)

(** The class-level environment exists once; instances are numbered in
    the order of their construction. *)
Record World : Type := mkWorld {
  env : Env;
  instances : list VoiceController
}.

(** [VoiceController()]: a new instance; the class is left as it is. *)
Definition construct (w : World) : nat * World :=
  (List.length (instances w), mkWorld (env w) (instances w ++ [init])%list).

Fixpoint replace_nth {A} (n : nat) (x : A) (l : list A) : list A :=
  match l, n with
  | [], _ => []
  | _ :: r, O => x :: r
  | y :: r, S n' => y :: replace_nth n' x r
  end.

(** [instance.method(...)]: the method runs on the one environment and on
    the instance [self]. *)
Definition call {A} (self : nat) (m : M A) (w : World) : option (Exc A * World) :=
  match nth_error (instances w) self with
  | None => None
  | Some c =>
      let '(r, (e', c')) := m (env w, c) in
      Some (r, mkWorld e' (replace_nth self c' (instances w)))
  end.

(** The interpreter right after the module is loaded, with a clock. *)
Definition fresh_env (clk : nat -> Q) : Env := mkEnv VOICE_TRIGGERS clk 0.
Definition fresh_world (clk : nat -> Q) : World := mkWorld (fresh_env clk) [].

End Voice.

(* ------------------------------------------------------------------ *)
(** ** The terminal session controller: start and stop *)

Module Terminal.
Import PyStr.

(** [TerminalController.TERMINALS] *)
Definition TERMINALS : list (string * list (string * list string)) :=
  [ ("Linux",
     [ ("gnome-terminal", ["gnome-terminal"; "--"; "bash"; "-c"]);
       ("konsole", ["konsole"; "-e"; "bash"; "-c"]);
       ("xterm", ["xterm"; "-e"; "bash"; "-c"]);
       ("terminator", ["terminator"; "-e"; "bash"; "-c"]);
       ("alacritty", ["alacritty"; "-e"; "bash"; "-c"]);
       ("kitty", ["kitty"; "bash"; "-c"]);
       ("xfce4-terminal", ["xfce4-terminal"; "-e"; "bash"; "-c"]);
       ("mate-terminal", ["mate-terminal"; "-e"; "bash"; "-c"]);
       ("lxterminal", ["lxterminal"; "-e"; "bash"; "-c"]);
       ("tilix", ["tilix"; "-e"; "bash"; "-c"]) ]);
    ("Darwin",
     [ ("Terminal", ["open"; "-a"; "Terminal"; "--args"]);
       ("iTerm", ["open"; "-a"; "iTerm"; "--args"]);
       ("Alacritty", ["open"; "-a"; "Alacritty"; "--args"]);
       ("Kitty", ["open"; "-a"; "Kitty"; "--args"]);
       ("Hyper", ["open"; "-a"; "Hyper"; "--args"]) ]);
    ("Windows",
     [ ("cmd", ["cmd.exe"; "/k"]);
       ("powershell", ["powershell.exe"; "-NoExit"; "-Command"]);
       ("wt", ["wt.exe"; "-d"; "."; "cmd.exe"; "/k"]);
       ("conemu", ["ConEmu64.exe"; "-run"]);
       ("cmder", ["cmder.exe"; "/START"]) ]) ].

Fixpoint lookup {A} (d : list (string * A)) (k : string) : option A :=
  match d with
  | [] => None
  | (k', v) :: r => if String.eqb k k' then Some v else lookup r k
  end.

(** A child process handle, named by its pid. *)
Definition Process : Type := nat.

(** The operating system as the controller meets it: what each call
    returns or raises. *)
Record OS : Type := mkOS {
  which : string -> bool;              (* [shutil.which(c) is not None] *)
  openpty : Exc (nat * nat);           (* [pty.openpty()] *)
  Popen : list string -> Exc Process;  (* [subprocess.Popen(command, ...)] *)
  set_nonblocking : nat -> Exc unit;   (* the two [fcntl.fcntl] calls *)
  start_threads : Exc unit;            (* [_start_io_threads] *)
  send_signal : Process -> Exc unit;   (* [terminate()], or [killpg(getpgid(pid), SIGTERM)] *)
  wait : Process -> Exc nat;           (* [process.wait(timeout=5)] *)
  close : nat -> Exc unit              (* [os.close(fd)] *)
}.

(** The instance attributes.  [pipes] says whether [stdin], [stdout] and
    [stderr] are bound (they are assigned together); [on_error_calls]
    logs the messages handed to [on_error]; [printed] is what the
    controller wrote with [print]. *)
Record TerminalController : Type := mkTerminalController {
  system : string;
  terminal_type : option string;
  process : option Process;
  pipes : bool;
  running : bool;
  master_fd : option nat;
  slave_fd : option nat;
  on_error_set : bool;
  on_error_calls : list string;
  printed : list string
}.

(** [__init__] on a platform whose [platform.system()] is [sys]. *)
Definition init (sys : string) (terminal_type : option string) : TerminalController :=
  mkTerminalController sys terminal_type None false false None None false [] [].

Definition set_process (p : option Process) (c : TerminalController) :=
  mkTerminalController (system c) (terminal_type c) p (pipes c) (running c)
    (master_fd c) (slave_fd c) (on_error_set c) (on_error_calls c) (printed c).
Definition set_pipes (b : bool) (c : TerminalController) :=
  mkTerminalController (system c) (terminal_type c) (process c) b (running c)
    (master_fd c) (slave_fd c) (on_error_set c) (on_error_calls c) (printed c).
Definition set_running (b : bool) (c : TerminalController) :=
  mkTerminalController (system c) (terminal_type c) (process c) (pipes c) b
    (master_fd c) (slave_fd c) (on_error_set c) (on_error_calls c) (printed c).
Definition set_master_fd (f : option nat) (c : TerminalController) :=
  mkTerminalController (system c) (terminal_type c) (process c) (pipes c) (running c)
    f (slave_fd c) (on_error_set c) (on_error_calls c) (printed c).
Definition set_slave_fd (f : option nat) (c : TerminalController) :=
  mkTerminalController (system c) (terminal_type c) (process c) (pipes c) (running c)
    (master_fd c) f (on_error_set c) (on_error_calls c) (printed c).
Definition set_on_error (b : bool) (c : TerminalController) :=
  mkTerminalController (system c) (terminal_type c) (process c) (pipes c) (running c)
    (master_fd c) (slave_fd c) b (on_error_calls c) (printed c).
Definition print (line : string) (c : TerminalController) :=
  mkTerminalController (system c) (terminal_type c) (process c) (pipes c) (running c)
    (master_fd c) (slave_fd c) (on_error_set c) (on_error_calls c)
    (printed c ++ [line])%list.

Definition M (A : Type) : Type := TerminalController -> Exc A * TerminalController.
Definition ret {A} (a : A) : M A := fun s => (ok a, s).
Definition bind {A B} (m : M A) (k : A -> M B) : M B :=
  fun s => match m s with
           | (ok a, s') => k a s'
           | (raise e, s') => (raise e, s')
           end.
Definition lift {A} (r : Exc A) : M A := fun s => (r, s).
Definition self_ : M TerminalController := fun s => (ok s, s).
Definition update (f : TerminalController -> TerminalController) : M unit :=
  fun s => (ok tt, f s).
(** [try: body  except ...: handler(e)]; the handler sees the state as the
    body left it. *)
Definition try_except {A} (body : M A) (handler : exn -> M A) : M A :=
  fun s => match body s with
           | (ok a, s') => (ok a, s')
           | (raise e, s') => handler e s'
           end.

Local Notation "x <- m ;; k" := (bind m (fun x => k))
  (at level 61, m at next level, right associativity).
Local Notation "m ;;; k" := (bind m (fun _ => k))
  (at level 61, right associativity).

(** [str(e)] *)
Definition str_exn (e : exn) : string :=
  match e with
  | re_error m => m
  | OSError m => m
  | FileNotFoundError m => m
  | TimeoutExpired _ => "timed out"
  end.

Definition is_unix (sys : string) : bool :=
  String.eqb sys "Linux" || String.eqb sys "Darwin".

(** [_check_terminal_exists] *)
Definition _check_terminal_exists (os : OS) (sys command : string) : bool :=
  if String.eqb sys "Windows" then
    if String.eqb command "cmd.exe" || String.eqb command "powershell.exe"
    then true else which os command
  else which os command.

(** [get_available_terminals] *)
Definition get_available_terminals (os : OS) (sys : string) : list string :=
  match lookup TERMINALS sys with
  | None => []
  | Some table =>
      map fst (filter (fun tc => _check_terminal_exists os sys (hd EmptyString (snd tc)))
                      table)
  end.

(** [a or b] on optional strings. *)
Definition or_else (a b : option string) : option string :=
  match a with
  | Some s => if truthy s then a else b
  | None => b
  end.

(** The block of [start_terminal] that picks the terminal command:
    [None] when it leaves through [return False]. *)
Definition terminal_command (os : OS) (c : TerminalController)
           (terminal_type_arg : option string) : option (list string) :=
  let table := match lookup TERMINALS (system c) with Some t => t | None => [] end in
  let by_default :=
    match get_available_terminals os (system c) with
    | [] => None
    | first :: _ => lookup table first
    end in
  match or_else terminal_type_arg (terminal_type c) with
  | Some terminal =>
      if truthy terminal then
        match lookup table terminal with
        | Some cmd => Some cmd
        | None => by_default
        end
      else by_default
  | None => by_default
  end.

(** [_start_unix_terminal] *)
Definition _start_unix_terminal (os : OS) (command : list string) : M unit :=
  fds <- lift (openpty os) ;;
  update (set_master_fd (Some (fst fds))) ;;;
  update (set_slave_fd (Some (snd fds))) ;;;
  p <- lift (Popen os command) ;;
  update (set_process (Some p)) ;;;
  lift (set_nonblocking os (fst fds)).

(** [_start_windows_terminal] *)
Definition _start_windows_terminal (os : OS) (command : list string) : M unit :=
  p <- lift (Popen os command) ;;
  update (set_process (Some p)) ;;;
  update (set_pipes true).

(** The platform branch at the head of the [try] block. *)
Definition spawn (os : OS) (command : list string) : M unit :=
  c <- self_ ;;
  if is_unix (system c) then _start_unix_terminal os command
  else _start_windows_terminal os command.

(** [start_terminal] *)
Definition start_terminal (os : OS) (command terminal_type_arg : option string)
  : M bool :=
  c <- self_ ;;
  if running c then ret false
  else
    match terminal_command os c terminal_type_arg with
    | None => ret false
    | Some terminal_cmd =>
        let terminal_cmd :=
          match command with
          | Some cmd => if truthy cmd then (terminal_cmd ++ [cmd])%list else terminal_cmd
          | None => terminal_cmd
          end in
        try_except
          (spawn os terminal_cmd ;;;
           update (set_running true) ;;;
           lift (start_threads os) ;;;
           ret true)
          (fun e =>
             update (print ("Error starting terminal: " ++ str_exn e)) ;;;
             ret false)
    end.

(** Truth value of a descriptor attribute: [None] and [0] are false. *)
Definition fd_truthy (fd : option nat) : option nat :=
  match fd with
  | Some (S n) => Some (S n)
  | _ => None
  end.

(** [stop_terminal] *)
Definition stop_terminal (os : OS) : M unit :=
  update (set_running false) ;;;
  c <- self_ ;;
  (match process c with
   | Some p =>
       try_except (lift (send_signal os p)) (fun _ => ret tt) ;;;
       _ <- lift (wait os p) ;;
       update (set_process None)
   | None => ret tt
   end) ;;;
  c <- self_ ;;
  (match fd_truthy (master_fd c) with
   | Some fd => lift (close os fd) ;;; update (set_master_fd None)
   | None => ret tt
   end) ;;;
  c <- self_ ;;
  (match fd_truthy (slave_fd c) with
   | Some fd => lift (close os fd) ;;; update (set_slave_fd None)
   | None => ret tt
   end).

End Terminal.

(* ------------------------------------------------------------------ *)
(** ** Concrete sessions used below *)

Module Scenario.
Import PyStr PyDict Voice.

(** A controller on which the caller has installed [on_command]. *)
Definition listening : VoiceController := set_on_command true init.

(** A clock whose successive readings are one millisecond apart. *)
Definition steady_clock : nat -> Q := fun n => (Z.of_nat n # 1000)%Q.

(** Two readings around time 0, then readings ten seconds later. *)
Definition silent_clock : nat -> Q :=
  fun n => match n with
           | 0%nat => 0%Q
           | 1%nat => (1 # 1000)%Q
           | 2%nat => 10%Q
           | _ => (10001 # 1000)%Q
           end.


(** A Linux host on which [xterm] is not installed: creating the process
    raises; everything else works. *)
Definition no_xterm : Terminal.OS :=
  Terminal.mkOS
    (fun _ => false)
    (ok (3, 4))
    (fun _ => raise (FileNotFoundError "[Errno 2] No such file or directory: 'xterm'"))
    (fun _ => ok tt)
    (ok tt)
    (fun _ => ok tt)
    (fun _ => ok 0)
    (fun _ => ok tt).

(** A host whose child ignores SIGTERM: the bounded wait times out. *)
Definition stubborn_child : Terminal.OS :=
  Terminal.mkOS
    (fun _ => true)
    (ok (3, 4))
    (fun _ => ok 4242)
    (fun _ => ok tt)
    (ok tt)
    (fun _ => ok tt)
    (fun _ => raise (TimeoutExpired 5))
    (fun _ => ok tt).

(** A controller that was never started, with [on_error] installed and
    [xterm] chosen. *)
Definition stopped_xterm : Terminal.TerminalController :=
  Terminal.set_on_error true (Terminal.init "Linux" (Some "xterm")).

(** A running Linux session: child 4242 on the descriptors 3 and 4. *)
Definition running_session : Terminal.TerminalController :=
  Terminal.mkTerminalController "Linux" None (Some 4242) false true
    (Some 3) (Some 4) true [] [].

End Scenario.

(* ------------------------------------------------------------------ *)
(** ** The rest of the two controllers and the dispatcher of the
       application *)

Module PyMore.
Import PyStr.

(** [not s.strip()]: every character is white space. *)
Fixpoint all_space (s : string) : bool :=
  match s with
  | EmptyString => true
  | String c r => isspace c && all_space r
  end.

(** [l[start:]] for an [int] start: a negative start counts from the end;
    both are clamped to the list. *)
Definition slice_from {A} (start : Z) (l : list A) : list A :=
  let n := Z.of_nat (List.length l) in
  let first := if (start <? 0)%Z then Z.max 0 (start + n) else Z.min start n in
  skipn (Z.to_nat first) l.

(** The one-character strings of the escapes used by [send_key]. *)
Definition chr (n : nat) : string := String (ascii_of_nat n) EmptyString.
Definition newline : string := chr 10.
Definition ESC : string := chr 27.

End PyMore.

Module VoiceAPI.
Import PyStr PyDict PyMore Voice.

(** [get_command_history]: [self.command_history[-limit:]] *)
Definition get_command_history (limit : Z) : M (list VoiceCommand) :=
  bind self_ (fun c => ret (slice_from (- limit) (command_history c))).

(** [clear_history] *)
Definition clear_history : M unit := update (set_command_history []).

(** The loop of [load_settings] over the items of [custom_triggers]. *)
Fixpoint load_custom_triggers (items : dict) : M unit :=
  match items with
  | [] => ret tt
  | (phrase, action) :: rest =>
      bind (add_custom_trigger phrase action) (fun _ => load_custom_triggers rest)
  end.

(** The command as [_execute_command] stores it and hands it on: the
    time stamp is the clock reading. *)
Definition stamped (command : VoiceCommand) (now : Q) : VoiceCommand :=
  mkVoiceCommand (type command) (content command) (confidence command) now.

(** The bound the eviction of [_execute_command] is meant to keep. *)
Definition history_bounded (s : State) : Prop :=
  List.length (command_history (snd s)) <= max_history (snd s).

(** The last [n] entries of a list. *)
Definition last_entries {A} (n : nat) (l : list A) : list A :=
  skipn (List.length l - n) l.

(** A method keeps the bound on the history, however it ends. *)
Definition keeps_bound {A} (m : M A) : Prop :=
  forall s, history_bounded s -> history_bounded (snd (m s)).

End VoiceAPI.

Module TerminalIO.
Import PyStr PyMore Terminal.

(** What the running session meets when it writes and when it asks for
    the state of the child. *)
Record IO : Type := mkIO {
  write : string -> Exc unit;      (* [os.write(master_fd, data)], or [stdin.write] and [flush] *)
  poll : Process -> option nat     (* [process.poll()] *)
}.

(** The controller, and the data that reached the child, in order. *)
Definition Wire : Type := (TerminalController * list string)%type.

(** [if self.on_error: self.on_error(message)] *)
Definition report (message : string) (c : TerminalController) : TerminalController :=
  if on_error_set c
  then mkTerminalController (system c) (terminal_type c) (process c) (pipes c)
         (running c) (master_fd c) (slave_fd c) (on_error_set c)
         (on_error_calls c ++ [message])%list (printed c)
  else c.

(** Is there something to write to: [if self.master_fd:] on Unix,
    [if self.stdin:] elsewhere. *)
Definition writable (c : TerminalController) : bool :=
  if is_unix (system c)
  then match fd_truthy (master_fd c) with Some _ => true | None => false end
  else pipes c.

(** The data [send_command] writes. *)
Definition with_newline (command : string) (add_newline : bool) : string :=
  if add_newline && negb (endswith command newline)
  then command ++ newline else command.

(** [send_command]; a write that succeeds takes the whole chunk. *)
Definition send_command (io : IO) (command : string) (add_newline : bool)
           (w : Wire) : Exc unit * Wire :=
  if negb (running (fst w)) then (ok tt, w)
  else
    let command := with_newline command add_newline in
    if writable (fst w) then
      match write io command with
      | ok _ => (ok tt, (fst w, (snd w ++ [command])%list))
      | raise e =>
          (ok tt, (report ("Error sending command: " ++ str_exn e) (fst w), snd w))
      end
    else (ok tt, w).

(** [key_map] of [send_key] *)
Definition key_map : list (string * string) :=
  [ ("Enter", newline);
    ("Tab", chr 9);
    ("Backspace", chr 8);
    ("Escape", ESC);
    ("Ctrl+C", chr 3);
    ("Ctrl+D", chr 4);
    ("Ctrl+Z", chr 26);
    ("Up", ESC ++ "[A");
    ("Down", ESC ++ "[B");
    ("Right", ESC ++ "[C");
    ("Left", ESC ++ "[D");
    ("Home", ESC ++ "[H");
    ("End", ESC ++ "[F");
    ("PageUp", ESC ++ "[5~");
    ("PageDown", ESC ++ "[6~");
    ("Delete", ESC ++ "[3~");
    ("Insert", ESC ++ "[2~") ].

(** [send_key] *)
Definition send_key (io : IO) (key : string) (w : Wire) : Exc unit * Wire :=
  match lookup key_map key with
  | Some bytes => send_command io bytes false w
  | None => (ok tt, w)
  end.

(** [is_running] *)
Definition is_running (io : IO) (c : TerminalController) : bool :=
  running c &&
  match process c with
  | Some p => match poll io p with None => true | Some _ => false end
  | None => false
  end.

End TerminalIO.

Module App.
Import PyStr Voice Terminal TerminalIO.

(** The two controllers the application owns, and the wire to the child. *)
Record AppState : Type := mkApp {
  voice : VoiceController;
  wire : Wire
}.

(** The lines the dispatcher prints with [self.console.print]; each stands
    for the markup string of the source, with [command.content] put into it
    as it is:
    [Typing c] for the green line that ends in Typing: c,
    [KeyLine c] for the yellow line that ends in Key: c,
    [ControlLine c] for the magenta line that ends in Control: c,
    [TerminalError m] for the red line that ends in Terminal error: m,
    and the two fixed lines Recording resumed and Recording paused. *)
Inductive Markup : Type :=
| Typing (content : string)
| KeyLine (content : string)
| ControlLine (content : string)
| TerminalError (message : string)
| RecordingResumed
| RecordingPaused.

(** [self.console.print(markup)]: it returns, or it raises (the console
    parses the markup, and a content that holds a tag it cannot match makes
    it raise). *)
Definition Console : Type := Markup -> Exc unit.

(** A console on which every line prints. *)
Definition plain_console : Console := fun _ => ok tt.

(** [self.terminal_controller.send_command] in the application, where the
    [on_error] of the terminal controller, when one is installed, is the
    callback of [setup_terminal_callbacks]: it prints the message.  The
    callback runs inside the handler of [send_command], so what the print
    raises leaves [send_command]. *)
Definition terminal_send_command (con : Console) (io : IO) (command : string)
           (add_newline : bool) (w : Wire) : Exc unit * Wire :=
  if negb (running (fst w)) then (ok tt, w)
  else
    let command := with_newline command add_newline in
    if writable (fst w) then
      match write io command with
      | ok _ => (ok tt, (fst w, (snd w ++ [command])%list))
      | raise e =>
          let message := "Error sending command: " ++ str_exn e in
          (if on_error_set (fst w)
           then exc_bind (con (TerminalError message)) (fun _ => ok tt)
           else ok tt,
           (report message (fst w), snd w))
      end
    else (ok tt, w).

(** [self.terminal_controller.send_key] in the application. *)
Definition terminal_send_key (con : Console) (io : IO) (key : string)
           (w : Wire) : Exc unit * Wire :=
  match lookup key_map key with
  | Some bytes => terminal_send_command con io bytes false w
  | None => (ok tt, w)
  end.

(** [VoiceCLIApp.handle_control_command] *)
Definition handle_control_command (con : Console) (io : IO) (command : string)
           (a : AppState) : Exc unit * AppState :=
  if String.eqb command "CLEAR" then
    let r := terminal_send_command con io
               (if String.eqb (system (fst (wire a))) "Windows" then "cls" else "clear")
               true (wire a) in
    (fst r, mkApp (voice a) (snd r))
  else if String.eqb command "START_RECORDING" then
    (exc_bind (con RecordingResumed) (fun _ => ok tt),
     mkApp (set_is_paused false (voice a)) (wire a))
  else if String.eqb command "STOP_RECORDING" then
    (exc_bind (con RecordingPaused) (fun _ => ok tt),
     mkApp (set_is_paused true (voice a)) (wire a))
  else (ok tt, a).

(** The [on_command] callback installed by [setup_voice_callbacks]: in
    every branch the line is printed first, and a print that raises ends
    the call. *)
Definition on_command (con : Console) (io : IO) (command : VoiceCommand)
           (a : AppState) : Exc unit * AppState :=
  match type command with
  | TEXT =>
      match con (Typing (content command)) with
      | ok _ =>
          let r := terminal_send_command con io (content command) false (wire a) in
          (fst r, mkApp (voice a) (snd r))
      | raise e => (raise e, a)
      end
  | KEY =>
      match con (KeyLine (content command)) with
      | ok _ =>
          let r := terminal_send_key con io (content command) (wire a) in
          (fst r, mkApp (voice a) (snd r))
      | raise e => (raise e, a)
      end
  | CONTROL =>
      match con (ControlLine (content command)) with
      | ok _ => handle_control_command con io (content command) a
      | raise e => (raise e, a)
      end
  | SYSTEM => (ok tt, a)
  end.

End App.

Module Scenario2.
Import PyStr Terminal TerminalIO.

(** A Linux host on which everything works: the pseudo-terminal is the
    pair (3, 4) and the child gets the pid 4242. *)
Definition healthy_linux : OS :=
  mkOS (fun _ => true) (ok (3, 4)) (fun _ => ok 4242) (fun _ => ok tt)
       (ok tt) (fun _ => ok tt) (fun _ => ok 0) (fun _ => ok tt).

(** The same host when no further thread can be started. *)
Definition no_more_threads : OS :=
  mkOS (fun _ => true) (ok (3, 4)) (fun _ => ok 4242) (fun _ => ok tt)
       (raise (OSError "can't start new thread")) (fun _ => ok tt)
       (fun _ => ok 0) (fun _ => ok tt).

(** A host on which no terminal program is installed. *)
Definition bare_host : OS :=
  mkOS (fun _ => false) (ok (3, 4)) (fun _ => ok 4242) (fun _ => ok tt)
       (ok tt) (fun _ => ok tt) (fun _ => ok 0) (fun _ => ok tt).

(** Writes that succeed, with a child that is alive. *)
Definition wire_ok : IO := mkIO (fun _ => ok tt) (fun _ => None).


(** A controller on a platform that is not in [TERMINALS]. *)
Definition on_freebsd : TerminalController := Terminal.init "FreeBSD" (Some "xterm").

(** A controller on Linux, never started, [kitty] chosen at construction. *)
Definition linux_kitty : TerminalController := Terminal.init "Linux" (Some "kitty").

End Scenario2.

Import PyStr PyDict Voice Scenario Scenario2.

(* ------------------------------------------------------------------ *)
(** ** Strings and dicts: basic facts *)

Section StringFacts.

Lemma lower_char_idem (c : ascii) : lower_char (lower_char c) = lower_char c.
Proof.
  destruct c as [[] [] [] [] [] [] [] []]; reflexivity.
Qed.

Lemma length_substring_le (s : string) :
  forall n m, String.length (substring n m s) <= m.
Proof.
  induction s as [|c s IH]; intros [|n] [|m]; simpl; auto with arith.
Qed.

Lemma length_drop_le (n : nat) (s : string) :
  String.length (drop n s) <= String.length s - n.
Proof. apply length_substring_le. Qed.

Lemma length_lstrip_le (s : string) :
  String.length (lstrip s) <= String.length s.
Proof.
  induction s as [|c s IH]; simpl; auto.
  destruct (isspace c); simpl; lia.
Qed.

Lemma length_rstrip_le (s : string) :
  String.length (rstrip s) <= String.length s.
Proof.
  induction s as [|c s IH]; simpl; auto.
  destruct (rstrip s) eqn:E.
  - destruct (isspace c); simpl; lia.
  - simpl in *. lia.
Qed.

Lemma length_strip_le (s : string) :
  String.length (strip s) <= String.length s.
Proof.
  unfold strip.
  etransitivity; [apply length_rstrip_le | apply length_lstrip_le].
Qed.

Lemma truthy_length (s : string) : truthy s = true -> 1 <= String.length s.
Proof. destruct s; simpl; [discriminate | lia]. Qed.

Lemma match_here_lower_self (t : string) : Re.match_here (lower t) t = true.
Proof.
  induction t as [|c t IH]; simpl; auto.
  rewrite lower_char_idem, Ascii.eqb_refl. exact IH.
Qed.

Lemma search_lower_self (t : string) : Re.search (lower t) t = Some 0.
Proof.
  destruct t; simpl; auto.
  rewrite lower_char_idem, Ascii.eqb_refl, match_here_lower_self. reflexivity.
Qed.

End StringFacts.

Section DictFacts.

Lemma get_In (d : dict) (k v : string) : get d k = Some v -> In (k, v) d.
Proof.
  induction d as [|[k' v'] d IH]; simpl; [discriminate|].
  destruct (String.eqb k k') eqn:E.
  - apply String.eqb_eq in E. intros [= ->]. subst. now left.
  - intros H. right. now apply IH.
Qed.

Lemma get_set_same (d : dict) (k v : string) : get (set d k v) k = Some v.
Proof.
  induction d as [|[k' v'] d IH]; simpl.
  - now rewrite String.eqb_refl.
  - destruct (String.eqb k k') eqn:E; simpl; rewrite E; auto.
Qed.

Lemma del_set_fresh (d : dict) (k v : string) :
  get d k = None -> del (set d k v) k = d.
Proof.
  induction d as [|[k' v'] d IH]; simpl.
  - now rewrite String.eqb_refl.
  - destruct (String.eqb k k') eqn:E; [discriminate|].
    intros H. simpl. rewrite E. f_equal. now apply IH.
Qed.

Lemma mem_false_get (d : dict) (k : string) : mem d k = false -> get d k = None.
Proof. unfold mem. destruct (get d k); [discriminate | reflexivity]. Qed.

(** The filter of [save_settings] compares the table with itself. *)
Lemma filter_not_mem_self (d d' : dict) :
  (forall kv, In kv d -> mem d' (fst kv) = true) ->
  filter (fun kv => negb (mem d' (fst kv))) d = [].
Proof.
  induction d as [|kv d IH]; simpl; auto.
  intros H. rewrite (H kv) by now left. simpl. apply IH.
  intros kv' Hin. apply H. now right.
Qed.

Lemma In_mem (d : dict) (kv : string * string) : In kv d -> mem d (fst kv) = true.
Proof.
  unfold mem. induction d as [|[k' v'] d IH]; simpl; [tauto|].
  intros [<- | Hin]; simpl.
  - now rewrite String.eqb_refl.
  - destruct (String.eqb (fst kv) k'); auto.
Qed.

End DictFacts.

(* ------------------------------------------------------------------ *)
(** ** Occurrences of a phrase in a text *)

Section Occurrences.

Lemma append_empty_r (a : string) : a ++ EmptyString = a.
Proof. induction a as [|x a IH]; simpl; [reflexivity | now rewrite IH]. Qed.

Lemma append_assoc (a b c : string) : (a ++ b) ++ c = a ++ (b ++ c).
Proof. induction a as [|x a IH]; simpl; [reflexivity | now rewrite IH]. Qed.

(** A failed search means no match at any position. *)
Lemma search_none_no_match (q : string) :
  forall pre t s, Re.search q t = None -> t = pre ++ s -> Re.match_here q s = false.
Proof.
  induction pre as [|c pre IH]; intros t s Hs ->; simpl in *.
  - destruct s; simpl in Hs; destruct (Re.match_here q _); congruence.
  - destruct (Re.match_here q (String c (pre ++ s))); [discriminate|].
    destruct (Re.search q (pre ++ s)) eqn:E; [discriminate|].
    now apply (IH (pre ++ s)).
Qed.

Lemma match_here_lower_text (q : string) :
  forall s, Re.match_here q (lower s) = Re.match_here q s.
Proof.
  induction q as [|x q IH]; intros [|c s]; simpl; auto.
  now rewrite lower_char_idem, IH.
Qed.

Lemma search_lower_text (q s : string) : Re.search q (lower s) = Re.search q s.
Proof.
  induction s as [|c s IH].
  - reflexivity.
  - change (lower (String c s)) with (String (lower_char c) (lower s)).
    cbn [Re.search].
    rewrite <- (match_here_lower_text q (String c s)).
    change (lower (String c s)) with (String (lower_char c) (lower s)).
    now rewrite IH.
Qed.

Lemma match_here_prefix (a b : string) : Re.match_here a (a ++ b) = true.
Proof.
  induction a as [|x a IH]; simpl; auto.
  now rewrite Ascii.eqb_refl.
Qed.

Lemma lstrip_suffix (s : string) : exists pre, s = pre ++ lstrip s.
Proof.
  induction s as [|c s [pre IH]]; simpl.
  - now exists EmptyString.
  - destruct (isspace c).
    + exists (String c pre). simpl. now rewrite <- IH.
    + now exists EmptyString.
Qed.

Lemma rstrip_prefix (s : string) : exists post, s = rstrip s ++ post.
Proof.
  induction s as [|c s [post IH]]; simpl.
  - now exists EmptyString.
  - destruct (rstrip s) as [|d r] eqn:E.
    + destruct (isspace c).
      * now exists (String c s).
      * now exists s.
    + exists post. simpl in *. now rewrite <- IH.
Qed.

Lemma strip_infix (s : string) : exists pre post, s = pre ++ strip s ++ post.
Proof.
  unfold strip.
  destruct (lstrip_suffix s) as [pre Hpre].
  destruct (rstrip_prefix (lstrip s)) as [post Hpost].
  exists pre, post. now rewrite <- Hpost.
Qed.

Lemma substring_infix (s : string) :
  forall n m, exists pre post, s = pre ++ substring n m s ++ post.
Proof.
  induction s as [|c s IH]; intros n m.
  - exists EmptyString, EmptyString. now destruct n, m.
  - destruct n as [|n].
    + destruct m as [|m]; simpl.
      * now exists EmptyString, (String c s).
      * destruct (IH 0 m) as (pre & post & E).
        (* the prefix before a substring taken from 0 is empty *)
        assert (P : exists post', s = substring 0 m s ++ post').
        { clear. revert m. induction s as [|d s IHs]; intros m.
          - exists EmptyString. now destruct m.
          - destruct m as [|m]; simpl.
            + now exists (String d s).
            + destruct (IHs m) as [post' E']. exists post'. now rewrite <- E'. }
        destruct P as [post' E'].
        exists EmptyString, post'. simpl. now rewrite <- E'.
    + destruct (IH n m) as (pre & post & E).
      exists (String c pre), post. simpl. now rewrite <- E.
Qed.

Lemma endswith_infix (s x : string) :
  endswith s x = true -> exists pre post, s = pre ++ x ++ post.
Proof.
  unfold endswith. intros H.
  apply andb_prop in H. destruct H as [_ H]. apply String.eqb_eq in H.
  destruct (substring_infix s (String.length s - String.length x) (String.length x))
    as (pre & post & E).
  rewrite H in E. now exists pre, post.
Qed.

(** A phrase found inside the stripped, lower-cased text is found by the
    case-insensitive search of the text. *)
Lemma infix_of_strip_lower_found (q p pre post : string) :
  strip (lower p) = pre ++ q ++ post -> Re.search q p <> None.
Proof.
  intros E Hs.
  destruct (strip_infix (lower p)) as (pre0 & post0 & E0).
  rewrite E in E0.
  rewrite <- search_lower_text in Hs.
  assert (M : Re.match_here q (q ++ (post ++ post0)) = false).
  { apply (search_none_no_match q (pre0 ++ pre) (lower p)); [exact Hs|].
    rewrite E0. now rewrite !append_assoc. }
  rewrite match_here_prefix in M. discriminate.
Qed.

End Occurrences.

(* ------------------------------------------------------------------ *)
(** ** Segmentation: facts about the loops *)

Section Segmentation.

Variable T : dict.

(** The split loop stops on its own: any fuel above the length of the
    text gives the same parts. *)
Lemma split_loop_fuel :
  forall n m r,
    String.length r < n -> String.length r < m ->
    split_loop T n r = split_loop T m r.
Proof.
  induction n as [|n IH]; intros m r Hn Hm; [lia|].
  destruct m as [|m]; [lia|].
  simpl.
  destruct (truthy r) eqn:Hr; simpl; [|reflexivity].
  destruct (earliest_loop T r (String.length r, None)) as [pos [[trig key]|]];
    [|reflexivity].
  destruct (truthy trig) eqn:Ht; [|reflexivity].
  apply truthy_length in Hr. apply truthy_length in Ht.
  assert (Hlen : String.length (strip (drop (pos + String.length trig) r))
                 < String.length r).
  { eapply Nat.le_lt_trans; [apply length_strip_le|].
    eapply Nat.le_lt_trans; [apply length_drop_le|]. lia. }
  f_equal. f_equal. apply IH; lia.
Qed.

(** More fuel than [_split_by_triggers] takes changes nothing. *)
Lemma _split_by_triggers_fuel (text : string) (extra : nat) :
  split_loop T (S (String.length text) + extra) text = _split_by_triggers T text.
Proof. unfold _split_by_triggers. apply split_loop_fuel; lia. Qed.

(** When no trigger occurs in the text the search loop keeps its start
    value. *)
Lemma earliest_loop_none (items : dict) (t : string) acc :
  (forall p a, In (p, a) items -> Re.search p t = None) ->
  earliest_loop items t acc = acc.
Proof.
  revert acc. induction items as [|[p a] items IH]; intros acc H; simpl; auto.
  rewrite (H p a) by now left.
  apply IH. intros q b Hin. apply (H q b). now right.
Qed.

Lemma _split_by_triggers_plain (t : string) :
  (forall p a, In (p, a) T -> Re.search p t = None) ->
  _split_by_triggers T t = if truthy t then [inl t] else [].
Proof.
  intros H. unfold _split_by_triggers. simpl.
  destruct (truthy t); simpl; [|reflexivity].
  now rewrite earliest_loop_none.
Qed.

(** A text in which no trigger occurs is not a trigger itself. *)
Lemma get_lower_plain (t : string) :
  (forall p a, In (p, a) T -> Re.search p t = None) ->
  get T (lower t) = None.
Proof.
  intros H. destruct (get T (lower t)) as [a|] eqn:E; [|reflexivity].
  apply get_In in E. apply H in E.
  rewrite search_lower_self in E. discriminate.
Qed.

(** Nor does it end with one, or hold one, for the immediate path. *)
Lemma ending_loop_plain (items : dict) (t : string) :
  (forall p a, In (p, a) items -> Re.search p t = None) ->
  ending_loop items t (strip (lower t)) = None.
Proof.
  induction items as [|[p a] items IH]; intros H; simpl; [reflexivity|].
  destruct (endswith (strip (lower t)) (String " " p)) eqn:E.
  - exfalso. apply endswith_infix in E. destruct E as (pre & post & E).
    apply (infix_of_strip_lower_found p t (pre ++ " ") post).
    + rewrite E. now rewrite append_assoc.
    + apply (H p a). now left.
  - apply IH. intros q b Hin. apply (H q b). now right.
Qed.

Lemma _check_for_triggers_plain (t : string) :
  (forall p a, In (p, a) T -> Re.search p t = None) ->
  _check_for_triggers T t = None.
Proof.
  intros H. unfold _check_for_triggers.
  destruct (get T (strip (lower t))) as [a|] eqn:E.
  - exfalso. apply get_In in E.
    apply (infix_of_strip_lower_found (strip (lower t)) t EmptyString EmptyString).
    + simpl. now rewrite append_empty_r.
    + now apply (H _ a).
  - now apply ending_loop_plain.
Qed.

(** A buffer that is a trigger as a whole gives the one command of the
    first branch of [_parse_transcription]. *)
Lemma _parse_transcription_whole (t a : string) :
  get T (lower t) = Some a ->
  _parse_transcription T t = ok [VoiceCommand_ (kind_whole a) a].
Proof. intros H. unfold _parse_transcription. now rewrite H. Qed.

End Segmentation.

Section Punctuation.

(** A template without a backslash is used as it is. *)
Lemma sub_word_literal (pat repl s : string) :
  mem_char "\"%char repl = false ->
  Re.sub_word pat repl s = ok (Re.sub_scan pat repl None 0 s).
Proof.
  intros H. unfold Re.sub_word, Re.compile_template. now rewrite H.
Qed.

(** The template of the entry for the word backslash does not compile,
    whatever the text is. *)
Lemma sub_word_backslash (pat s : string) :
  Re.sub_word pat "\" s = raise (re_error "bad escape (end of pattern)").
Proof. reflexivity. Qed.

(** The loop raises at the first such entry when the entries before it
    have plain templates. *)
Lemma punctuation_loop_bad_template (pre post : dict) (pat : string) :
  Forall (fun kv => mem_char "\"%char (snd kv) = false) pre ->
  forall text,
    punctuation_loop (pre ++ (pat, "\") :: post)%list text
    = raise (re_error "bad escape (end of pattern)").
Proof.
  induction 1 as [|[k v] pre Hk Hpre IH]; intros text; simpl.
  - reflexivity.
  - simpl in Hk. rewrite sub_word_literal by exact Hk. simpl. apply IH.
Qed.

(** The punctuation loop reaches that entry for every text: in the source
    as it stands [_process_text] raises [re.error] on every call. *)
Lemma _process_text_raises (text : string) :
  _process_text text = raise (re_error "bad escape (end of pattern)").
Proof.
  unfold _process_text.
  change PUNCTUATION_MAP
    with (firstn 18 PUNCTUATION_MAP ++ ("backslash", "\") :: skipn 19 PUNCTUATION_MAP)%list.
  rewrite punctuation_loop_bad_template; [reflexivity|].
  repeat constructor.
Qed.

End Punctuation.

(* ------------------------------------------------------------------ *)
(** ** The engine: one fragment at a time *)

Section Engine.

(** A paused engine leaves at the first test: nothing changes, whatever
    the fragment says. *)
Lemma _handle_transcription_paused (e : Env) (c : VoiceController)
      (text : string) (is_final : bool) :
  is_paused c = true ->
  _handle_transcription text is_final (e, c) = (ok tt, (e, c)).
Proof.
  intros H. unfold _handle_transcription, bind, self_. simpl.
  now rewrite H.
Qed.

(** A fragment that is not final, holds no immediate trigger and does not
    complete a trigger at the end of the buffer only joins the buffer,
    provided the two clock readings of the call are no more than the
    silence threshold apart. *)
Lemma _handle_transcription_buffers (e : Env) (c : VoiceController) (text : string) :
  is_paused c = false ->
  truthy (strip text) = true ->
  _check_for_triggers (triggers e) (strip text) = None ->
  ends_with_trigger (triggers e) (appended c (strip text)) = false ->
  (clock e (S (reads e)) - clock e (reads e) <= silence_threshold c)%Q ->
  _handle_transcription text false (e, c)
  = (ok tt,
     (mkEnv (triggers e) (clock e) (S (S (reads e))),
      set_last_transcription_time (clock e (reads e))
        (set_transcription_buffer (appended c (strip text)) c))).
Proof.
  intros Hp Ht Hc He Hq.
  unfold _handle_transcription, bind, self_. simpl.
  rewrite Hp, Ht. simpl.
  unfold update, time_time, table_, _should_process_buffer, bind, self_, ret.
  simpl. rewrite Hc. simpl.
  apply Qle_bool_iff in Hq. rewrite Hq. simpl.
  rewrite He. reflexivity.
Qed.

End Engine.

(* ------------------------------------------------------------------ *)
(** ** Properties of the segmentation engine *)

Section EngineProperties.




(** C2.  The fragment hello, not final, is buffered at time 0.  The
    engine runs only inside [_handle_transcription]; with no further
    fragment the state below is where it stays, whatever time passes.
    Even the next fragment, ten seconds later and not final, flushes
    nothing: the time stamp is refreshed before the silence test reads
    it.  The buffered hello is never emitted. *)
Theorem silence_does_not_flush :
  let s1 := deliver [("hello", false)] (fresh_env silent_clock, listening) in
  fst s1 = ok tt
  /\ transcription_buffer (snd (snd s1)) = "hello"
  /\ on_command_calls (snd (snd s1)) = []
  /\ let s2 := _handle_transcription "world" false (snd s1) in
     fst s2 = ok tt
     /\ last_transcription_time (snd (snd s2)) = 10%Q
     /\ transcription_buffer (snd (snd s2)) = "hello world"
     /\ on_command_calls (snd (snd s2)) = [].
Proof. vm_compute. repeat split. Qed.

(** C3.  The spoken phrase stop recording pauses the engine, as [pause]
    does.  From then on every fragment is dropped at the first test of
    [_handle_transcription]: the spoken phrases start recording and
    resume recording leave the engine paused. *)
Theorem paused_engine_ignores_start_phrase :
  let s1 := deliver [("stop recording", false)]
                    (fresh_env steady_clock, listening) in
  fst s1 = ok tt
  /\ is_paused (snd (snd s1)) = true
  /\ _handle_transcription "start recording" true (snd s1) = (ok tt, snd s1)
  /\ _handle_transcription "resume recording" true (snd s1) = (ok tt, snd s1).
Proof.
  cbv zeta.
  destruct (deliver [("stop recording", false)]
                    (fresh_env steady_clock, listening))
    as [r [e c]] eqn:E.
  assert (Hr : r = ok tt /\ is_paused c = true).
  { apply (f_equal (fun x => (fst x, is_paused (snd (snd x))))) in E.
    vm_compute in E. now inversion E. }
  destruct Hr as [-> Hp]. simpl.
  repeat split; auto using _handle_transcription_paused.
Qed.

(** C4.  A buffer that is exactly the phrase resume recording, clear
    screen or clear terminal is segmented into one command of kind Key,
    not Control; through the immediate path the phrase pause recording is
    a Key as well. *)
Theorem resume_and_clear_segment_as_key :
  _parse_transcription VOICE_TRIGGERS "resume recording"
    = ok [VoiceCommand_ KEY "RESUME_RECORDING"]
  /\ _parse_transcription VOICE_TRIGGERS "clear screen"
     = ok [VoiceCommand_ KEY "CLEAR"]
  /\ _parse_transcription VOICE_TRIGGERS "clear terminal"
     = ok [VoiceCommand_ KEY "CLEAR"]
  /\ _check_for_triggers VOICE_TRIGGERS "pause recording"
     = Some (VoiceCommand_ KEY "PAUSE_RECORDING").
Proof. repeat split. Qed.

(** The part of C4 that holds: every built-in phrase, taken as the whole
    buffer, gives exactly one command whose content is the mapped action;
    its kind is what the prefix test of [_parse_transcription] says. *)
Lemma builtin_whole_buffer_one_command :
  Forall (fun kv => _parse_transcription VOICE_TRIGGERS (fst kv)
                    = ok [VoiceCommand_ (kind_whole (snd kv)) (snd kv)])
         VOICE_TRIGGERS.
Proof. repeat constructor. Qed.

(** C5.  [remove_custom_trigger] deletes a built-in entry like any other:
    after the call on the phrase enter the table has no entry for it and
    the word is no trigger any more; a built-in that was overwritten and
    then removed is gone as well. *)
Theorem remove_deletes_builtin :
  get VOICE_TRIGGERS "enter" = Some "Enter"
  /\ (let s1 := snd (remove_custom_trigger "enter"
                       (fresh_env steady_clock, init)) in
      get (triggers (fst s1)) "enter" = None
      /\ _check_for_triggers (triggers (fst s1)) "enter" = None)
  /\ (let s2 := snd (remove_custom_trigger "tab"
                       (snd (add_custom_trigger "tab" "Enter"
                               (fresh_env steady_clock, init)))) in
      get (triggers (fst s2)) "tab" = None).
Proof. vm_compute. repeat split. Qed.

End EngineProperties.

(* ------------------------------------------------------------------ *)
(** ** Text without triggers, and the mutable trigger table *)

Section TriggerTable.

(** C8.  The text hello contains no trigger phrase, and segmenting it
    does not yield the one Text command: [_parse_transcription] raises
    [re.error], because the punctuation step fails at the entry for the
    word backslash whatever the text is.  Delivered as a final fragment,
    hello is lost: the call raises, nothing is handed to [on_command], and
    the buffer is empty afterwards. *)
Theorem plain_text_segmentation_raises :
  (forall p a, In (p, a) VOICE_TRIGGERS -> Re.search p "hello" = None)
  /\ _parse_transcription VOICE_TRIGGERS "hello"
     = raise (re_error "bad escape (end of pattern)")
  /\ (let r := deliver [("hello", true)] (fresh_env steady_clock, listening) in
      fst r = raise (re_error "bad escape (end of pattern)")
      /\ on_command_calls (snd (snd r)) = []
      /\ transcription_buffer (snd (snd r)) = EmptyString).
Proof.
  split; [|split].
  - intros p a Hin.
    assert (Hall : forallb (fun kv => match Re.search (fst kv) "hello" with
                                      | None => true
                                      | Some _ => false
                                      end) VOICE_TRIGGERS = true)
      by reflexivity.
    rewrite forallb_forall in Hall. specialize (Hall _ Hin). cbn [fst] in Hall.
    now destruct (Re.search p "hello").
  - vm_compute. reflexivity.
  - vm_compute. repeat split.
Qed.

(** X29.  For a phrase that is not in the table, [add_custom_trigger]
    followed by [remove_custom_trigger] gives back the environment and the
    controller as they were: in between the phrase is a trigger with the
    given action, afterwards it is none, every text is segmented as
    before, and the phrase itself, when no trigger of the table occurs in
    it, is split into the one literal text part. *)
Theorem add_then_remove_restores :
  forall (e : Env) (c : VoiceController) (p a : string),
    mem (triggers e) (lower p) = false ->
    let s1 := snd (add_custom_trigger p a (e, c)) in
    let s2 := snd (remove_custom_trigger p s1) in
    get (triggers (fst s1)) (lower p) = Some a
    /\ s2 = (e, c)
    /\ get (triggers (fst s2)) (lower p) = None
    /\ (forall text,
          _parse_transcription (triggers (fst s2)) text
          = _parse_transcription (triggers e) text)
    /\ ((forall q b, In (q, b) (triggers e) -> Re.search q p = None) ->
        truthy p = true ->
        _check_for_triggers (triggers (fst s2)) p = None
        /\ _split_by_triggers (triggers (fst s2)) p = [inl p]).
Proof.
  intros [T clk n] c p a Hm. simpl in Hm.
  pose proof (mem_false_get _ _ Hm) as Hg.
  assert (E : snd (remove_custom_trigger p (snd (add_custom_trigger p a (mkEnv T clk n, c))))
              = (mkEnv T clk n, c)).
  { unfold remove_custom_trigger, add_custom_trigger, update_table. simpl.
    unfold mem. rewrite get_set_same. now rewrite del_set_fresh. }
  cbv zeta. rewrite E. simpl.
  split; [apply get_set_same|].
  split; [reflexivity|].
  split; [exact Hg|].
  split; [reflexivity|].
  intros Hno Hp. split.
  - now apply _check_for_triggers_plain.
  - rewrite _split_by_triggers_plain by exact Hno. now rewrite Hp.
Qed.

Lemma add_then_remove_restores_witness :
  let e := fresh_env steady_clock in
  let s1 := snd (add_custom_trigger "foo" "Tab" (e, init)) in
  let s2 := snd (remove_custom_trigger "foo" s1) in
  mem (triggers e) (lower "foo") = false
  /\ get (triggers (fst s1)) "foo" = Some "Tab"
  /\ s2 = (e, init)
  /\ get (triggers (fst s2)) "foo" = None
  /\ _check_for_triggers (triggers (fst s2)) "foo" = None
  /\ _split_by_triggers (triggers (fst s2)) "foo" = [inl "foo"].
Proof.
  pose proof (add_then_remove_restores (fresh_env steady_clock) init "foo" "Tab"
                eq_refl) as H.
  cbv zeta in *.
  destruct H as (H1 & H2 & H3 & _ & H5).
  destruct H5 as [H5 H6].
  - intros q b Hin. simpl in Hin.
    repeat (destruct Hin as [Hin | Hin]; [inversion Hin; reflexivity|]).
    contradiction.
  - reflexivity.
  - repeat split; assumption.
Defined.

(** C9.  The round trip on the phrase foo: in between foo is the Tab
    trigger; afterwards the environment and the controller are as before
    and foo is no trigger; but foo is not segmented as literal text:
    [_parse_transcription] raises [re.error] on it, and delivered as a
    final fragment it is lost without any command. *)
Theorem round_trip_phrase_is_not_typed :
  let e := fresh_env steady_clock in
  let s1 := snd (add_custom_trigger "foo" "Tab" (e, listening)) in
  let s2 := snd (remove_custom_trigger "foo" s1) in
  _parse_transcription (triggers (fst s1)) "foo" = ok [VoiceCommand_ KEY "Tab"]
  /\ s2 = (e, listening)
  /\ get (triggers (fst s2)) "foo" = None
  /\ _check_for_triggers (triggers (fst s2)) "foo" = None
  /\ _parse_transcription (triggers (fst s2)) "foo"
     = raise (re_error "bad escape (end of pattern)")
  /\ (let r := _handle_transcription "foo" true s2 in
      fst r = raise (re_error "bad escape (end of pattern)")
      /\ on_command_calls (snd (snd r)) = []).
Proof. vm_compute. repeat split. Qed.

(** What [save_settings] stores as custom triggers is always empty: it
    filters the one table against itself. *)
Lemma saved_custom_triggers_empty (s : State) :
  fst (saved_custom_triggers s) = ok [].
Proof.
  unfold saved_custom_triggers, bind, table_, ret. simpl.
  f_equal. apply filter_not_mem_self. intros kv. apply In_mem.
Qed.

End TriggerTable.

(* ------------------------------------------------------------------ *)
(** ** One table for all controllers *)

Section SharedTable.

Lemma replace_nth_same {A} (l : list A) :
  forall n x, nth_error l n = Some x -> replace_nth n x l = l.
Proof.
  induction l as [|y l IH]; intros [|n] x H; simpl in *; try discriminate.
  - now inversion H.
  - f_equal. now apply IH.
Qed.

(** A method that leaves [self] alone leaves the list of instances
    alone. *)
Lemma call_frame {A} (e : Env) (l : list VoiceController) (i : nat)
      (c : VoiceController) (m : M A) (r : Exc A) (e' : Env) :
  nth_error l i = Some c ->
  m (e, c) = (r, (e', c)) ->
  call i m (mkWorld e l) = Some (r, mkWorld e' l).
Proof.
  intros Hi Hm. unfold call. simpl. rewrite Hi, Hm.
  now rewrite replace_nth_same.
Qed.

(** C10.  The trigger table belongs to the class.  After
    [add_custom_trigger] on the instance [i], the lookup and the
    segmentation run on any instance [j], and on an instance constructed
    afterwards, read the table with the new entry; after
    [remove_custom_trigger] on [i] they read the table without it. *)
Theorem trigger_table_is_shared :
  forall (w : World) (i j : nat) (ci cj : VoiceController) (p a text : string),
    nth_error (instances w) i = Some ci ->
    nth_error (instances w) j = Some cj ->
    let T1 := set (triggers (env w)) (lower p) a in
    let T2 := del T1 (lower p) in
    exists w1 w3,
      call i (add_custom_trigger p a) w = Some (ok tt, w1)
      /\ call j (self_parse_transcription text) w1
         = Some (_parse_transcription T1 text, w1)
      /\ call j (self_check_for_triggers text) w1
         = Some (ok (_check_for_triggers T1 text), w1)
      /\ (let k := fst (construct w1) in
          let w2 := snd (construct w1) in
          call k (self_parse_transcription text) w2
          = Some (_parse_transcription T1 text, w2))
      /\ call i (remove_custom_trigger p) w1 = Some (ok tt, w3)
      /\ call j (self_parse_transcription text) w3
         = Some (_parse_transcription T2 text, w3)
      /\ call j (self_check_for_triggers text) w3
         = Some (ok (_check_for_triggers T2 text), w3)
      /\ (let k := fst (construct w3) in
          let w4 := snd (construct w3) in
          call k (self_parse_transcription text) w4
          = Some (_parse_transcription T2 text, w4)).
Proof.
  intros [[T clk n] l] i j ci cj p a text Hi Hj. simpl in Hi, Hj. simpl.
  exists (mkWorld (mkEnv (set T (lower p) a) clk n) l),
         (mkWorld (mkEnv (del (set T (lower p) a) (lower p)) clk n) l).
  repeat split.
  - now apply (call_frame _ l i ci).
  - now apply (call_frame _ l j cj).
  - now apply (call_frame _ l j cj).
  - apply (call_frame _ _ _ init); [|reflexivity].
    rewrite nth_error_app2 by lia. now rewrite Nat.sub_diag.
  - apply (call_frame _ l i ci); [exact Hi|].
    unfold remove_custom_trigger, update_table, mem. simpl.
    now rewrite get_set_same.
  - now apply (call_frame _ l j cj).
  - now apply (call_frame _ l j cj).
  - apply (call_frame _ _ _ init); [|reflexivity].
    rewrite nth_error_app2 by lia. now rewrite Nat.sub_diag.
Qed.

Lemma trigger_table_is_shared_witness :
  let w0 := snd (construct (snd (construct (fresh_world steady_clock)))) in
  let T1 := set VOICE_TRIGGERS "foo" "Tab" in
  exists w1 w3,
    call 0 (add_custom_trigger "Foo" "Tab") w0 = Some (ok tt, w1)
    /\ call 1 (self_parse_transcription "foo") w1
       = Some (ok [VoiceCommand_ KEY "Tab"], w1)
    /\ call 0 (remove_custom_trigger "foo") w1 = Some (ok tt, w3)
    /\ call 1 (self_check_for_triggers "foo") w3 = Some (ok None, w3).
Proof.
  destruct (trigger_table_is_shared
              (snd (construct (snd (construct (fresh_world steady_clock)))))
              0 1 init init "Foo" "Tab" "foo" eq_refl eq_refl)
    as (w1 & w3 & H1 & H2 & _ & _ & H5 & _ & H7 & _).
  exists w1, w3. repeat split.
  - exact H1.
  - exact H2.
  - exact H5.
  - exact H7.
Defined.

End SharedTable.

(* ------------------------------------------------------------------ *)
(** ** Properties of the terminal session controller *)

Section TerminalProperties.
Import Terminal.

(** C6 (as stated, refuted).  With [xterm] chosen and not installed,
    process creation raises: [start_terminal] returns [False] and the
    session stays stopped, but no message reaches [on_error]; the
    failure is printed. *)
Lemma spawn_failure_claim_fails :
  let r := start_terminal no_xterm (Some "claude") None stopped_xterm in
  fst r = ok false
  /\ running (snd r) = false
  /\ on_error_set (snd r) = true
  /\ on_error_calls (snd r) = []
  /\ ~ (exists message, In message (on_error_calls (snd r))).
Proof.
  vm_compute. repeat split. intros [m []].
Qed.

(** C6 (amended).  When no terminal command resolves, or process creation
    raises, [start_terminal] on a stopped session returns [False] without
    raising, leaves the session stopped, and does not call [on_error]:
    the caller learns of the failure from the return value. *)
Theorem start_terminal_spawn_failure :
  forall (os : OS) (c : TerminalController) (command terminal_type_arg : option string),
    running c = false ->
    (terminal_command os c terminal_type_arg = None
     \/ exists e, forall cmd, Popen os cmd = raise e) ->
    let r := start_terminal os command terminal_type_arg c in
    fst r = ok false
    /\ running (snd r) = false
    /\ on_error_calls (snd r) = on_error_calls c.
Proof.
  intros os c command tt Hrun H.
  unfold start_terminal, bind, self_, ret. simpl. rewrite Hrun.
  destruct (terminal_command os c tt) as [cmd|] eqn:Ecmd.
  - destruct H as [H | [e HP]]; [discriminate|].
    unfold try_except, spawn, bind, self_, update, lift.
    destruct (is_unix (system c)).
    + unfold _start_unix_terminal, bind, lift, update.
      destruct (openpty os) as [[m s]|e0]; simpl.
      * rewrite HP. simpl. auto.
      * auto.
    + unfold _start_windows_terminal, bind, lift, update.
      rewrite HP. simpl. auto.
  - simpl. auto.
Qed.

Lemma start_terminal_spawn_failure_witness :
  running stopped_xterm = false
  /\ (exists e, forall cmd, Popen no_xterm cmd = raise e)
  /\ let r := start_terminal no_xterm (Some "claude") None stopped_xterm in
     fst r = ok false
     /\ running (snd r) = false
     /\ on_error_calls (snd r) = on_error_calls stopped_xterm.
Proof.
  assert (H : exists e, forall cmd, Popen no_xterm cmd = raise e).
  { eexists. intros cmd. reflexivity. }
  split; [reflexivity|]. split; [exact H|].
  exact (start_terminal_spawn_failure no_xterm stopped_xterm (Some "claude") None
           eq_refl (or_intror H)).
Defined.

(** C7.  When the child does not exit within the five seconds of the
    wait, [stop_terminal] raises [TimeoutExpired]: the running flag is
    already off, but the process handle and both descriptors are left as
    they were. *)
Theorem stop_terminal_raises_on_wait_timeout :
  stop_terminal stubborn_child running_session
  = (raise (TimeoutExpired 5), set_running false running_session)
  /\ process (snd (stop_terminal stubborn_child running_session)) = Some 4242
  /\ master_fd (snd (stop_terminal stubborn_child running_session)) = Some 3
  /\ slave_fd (snd (stop_terminal stubborn_child running_session)) = Some 4.
Proof. repeat split. Qed.

(** The part of C7 that holds: on a session with no process and no open
    descriptor, [stop_terminal] returns and only clears the running
    flag. *)
Lemma stop_terminal_stopped (os : OS) (c : TerminalController) :
  process c = None -> fd_truthy (master_fd c) = None ->
  fd_truthy (slave_fd c) = None ->
  stop_terminal os c = (ok tt, set_running false c).
Proof.
  intros Hp Hm Hs.
  unfold stop_terminal, bind, self_, update, ret. cbn.
  rewrite Hp. cbn. rewrite Hm. cbn. now rewrite Hs.
Qed.

(** A failure of the signal alone is swallowed. *)
Lemma stop_terminal_signal_failure (os : OS) (c : TerminalController)
      (p : Process) (code : nat) :
  process c = Some p -> wait os p = ok code ->
  fd_truthy (master_fd c) = None -> fd_truthy (slave_fd c) = None ->
  stop_terminal os c = (ok tt, set_process None (set_running false c)).
Proof.
  intros Hp Hw Hm Hs.
  unfold stop_terminal, bind, self_, update, ret, try_except, lift. cbn.
  rewrite Hp.
  destruct (send_signal os p); cbn; rewrite Hw; cbn; rewrite Hm; cbn;
    now rewrite Hs.
Qed.

End TerminalProperties.

(* ------------------------------------------------------------------ *)
(** ** White space at the ends of a text *)

Section WhiteSpace.
Import PyMore.

Lemma isspace_lower_char (c : ascii) : isspace (lower_char c) = isspace c.
Proof. destruct c as [[] [] [] [] [] [] [] []]; reflexivity. Qed.

Lemma length_lower (s : string) : String.length (lower s) = String.length s.
Proof. induction s as [|c s IH]; simpl; auto. Qed.

Lemma lower_app (a b : string) : lower (a ++ b) = lower a ++ lower b.
Proof. induction a as [|c a IH]; simpl; [reflexivity | now rewrite IH]. Qed.

Lemma all_space_lower (s : string) : all_space (lower s) = all_space s.
Proof.
  induction s as [|c s IH]; simpl; auto.
  now rewrite isspace_lower_char, IH.
Qed.

Lemma length_app (a b : string) :
  String.length (a ++ b) = String.length a + String.length b.
Proof. induction a as [|c a IH]; simpl; auto. Qed.

Lemma all_space_strip (s : string) : all_space s = true -> strip s = EmptyString.
Proof.
  unfold strip. induction s as [|c s IH]; simpl; auto.
  intros H. apply andb_prop in H. destruct H as [Hc Hs].
  rewrite Hc. now apply IH.
Qed.

Lemma rstrip_cons_nonspace (c : ascii) (r : string) :
  isspace c = false -> rstrip (String c r) = String c (rstrip r).
Proof. intros H. simpl. rewrite H. now destruct (rstrip r). Qed.

(** The text between leading white space and the rest. *)
Lemma strip_decomp (L r : string) (c : ascii) :
  all_space L = true -> isspace c = false ->
  strip (L ++ String c r) = String c (rstrip r).
Proof.
  intros HL Hc. unfold strip.
  induction L as [|d L IH]; simpl.
  - rewrite Hc. now apply rstrip_cons_nonspace.
  - simpl in HL. apply andb_prop in HL. destruct HL as [Hd HL].
    rewrite Hd. now apply IH.
Qed.

Lemma not_all_space_decomp (s : string) :
  all_space s = false ->
  exists L c r, s = L ++ String c r /\ all_space L = true /\ isspace c = false.
Proof.
  induction s as [|d s IH]; simpl; [discriminate|].
  destruct (isspace d) eqn:Hd; simpl.
  - intros H. destruct (IH H) as (L & c & r & -> & HL & Hc).
    exists (String d L), c, r. simpl. now rewrite Hd, HL.
  - intros _. now exists EmptyString, d, s.
Qed.

Lemma substring_full (s : string) : substring 0 (String.length s) s = s.
Proof. induction s as [|c s IH]; simpl; [reflexivity | now rewrite IH]. Qed.

Lemma endswith_length (s x : string) :
  endswith s x = true -> String.length x <= String.length s.
Proof.
  unfold endswith. intros H. apply andb_prop in H. destruct H as [H _].
  now apply Nat.leb_le.
Qed.

Lemma endswith_same_length (s x : string) :
  endswith s x = true -> String.length s = String.length x -> s = x.
Proof.
  unfold endswith. intros H E. apply andb_prop in H. destruct H as [_ H].
  apply String.eqb_eq in H. rewrite <- E, Nat.sub_diag, substring_full in H.
  exact H.
Qed.

(** A prefix that reaches past the leading white space is not blank. *)
Lemma truthy_strip_take (L r : string) (c : ascii) :
  all_space L = true -> isspace c = false ->
  forall n, String.length L < n ->
  truthy (strip (take n (L ++ String c r))) = true.
Proof.
  intros HL Hc. unfold take.
  induction L as [|d L IH]; intros n Hn.
  - destruct n as [|n]; [simpl in Hn; lia|].
    simpl. change (String c (substring 0 n r)) with (EmptyString ++ String c (substring 0 n r)).
    now rewrite strip_decomp.
  - destruct n as [|n]; [lia|]. simpl in *.
    apply andb_prop in HL. destruct HL as [Hd HL].
    unfold strip in *. simpl. rewrite Hd. apply IH; [exact HL | lia].
Qed.

End WhiteSpace.

(* ------------------------------------------------------------------ *)
(** ** The immediate path *)

Section ImmediatePath.
Import PyMore.

(** The second loop of [_check_for_triggers] never yields a command: when
    the lower-cased, stripped text ends with a space and a trigger, the
    text before that ending is never blank. *)
Lemma ending_loop_none (items : dict) (text : string) :
  ending_loop items text (strip (lower text)) = None.
Proof.
  induction items as [|[trigger key] items IH]; simpl; [reflexivity|].
  destruct (endswith (strip (lower text)) (String " " trigger)) eqn:E; [|exact IH].
  destruct (all_space text) eqn:Hs.
  - rewrite all_space_strip in E by now rewrite all_space_lower.
    discriminate.
  - destruct (not_all_space_decomp text Hs) as (L & c & r & -> & HL & Hc).
    rewrite lower_app in E. simpl in E.
    rewrite strip_decomp in E
      by (rewrite ?all_space_lower, ?isspace_lower_char; assumption).
    pose proof (endswith_length _ _ E) as Hlen. simpl in Hlen.
    assert (Hne : String.length (String (lower_char c) (rstrip (lower r)))
                  <> String.length (String " " trigger)).
    { intros Heq. apply (endswith_same_length _ _ E) in Heq.
      injection Heq as Hc' _. rewrite <- isspace_lower_char, Hc' in Hc.
      discriminate. }
    simpl in Hne.
    pose proof (length_rstrip_le (lower r)) as Hr. rewrite length_lower in Hr.
    unfold drop_last.
    rewrite truthy_strip_take; [reflexivity | exact HL | exact Hc |].
    rewrite length_app. simpl. lia.
Qed.

(** X1.  [_check_for_triggers] returns a command exactly when the
    lower-cased, stripped text is a key of the table; a text that merely
    ends with a trigger phrase never gives one. *)
Theorem _check_for_triggers_exact (T : dict) (text : string) :
  _check_for_triggers T text
  = match get T (strip (lower text)) with
    | Some key => Some (VoiceCommand_ (kind_inline key) key)
    | None => None
    end.
Proof.
  unfold _check_for_triggers.
  destruct (get T (strip (lower text))); [reflexivity|].
  apply ending_loop_none.
Qed.

End ImmediatePath.

(* ------------------------------------------------------------------ *)
(** ** What segmentation returns *)

Section SegmentationResults.

(** The loop returns on a table whose templates hold no backslash. *)
Lemma punctuation_loop_plain_templates (items : dict) :
  Forall (fun kv => mem_char "\"%char (snd kv) = false) items ->
  forall text, exists s, punctuation_loop items text = ok s.
Proof.
  induction 1 as [|[k v] items Hk Hitems IH]; intros text; simpl.
  - now exists text.
  - simpl in Hk. rewrite sub_word_literal by exact Hk. simpl. apply IH.
Qed.

(** X2.  [_process_text] raises [re.error] for every text, and the entry
    for the word backslash is the only cause: on the table without that
    entry the substitution loop returns. *)
Theorem punctuation_fails_only_at_backslash (text : string) :
  _process_text text = raise (re_error "bad escape (end of pattern)")
  /\ exists s,
       punctuation_loop (firstn 18 PUNCTUATION_MAP ++ skipn 19 PUNCTUATION_MAP)%list text
       = ok s.
Proof.
  split; [apply _process_text_raises|].
  apply punctuation_loop_plain_templates.
  repeat constructor.
Qed.

Lemma kind_inline_cases (key : string) :
  kind_inline key = KEY \/ kind_inline key = CONTROL.
Proof. unfold kind_inline. destruct (_ || _); auto. Qed.

Lemma kind_whole_cases (key : string) :
  kind_whole key = KEY \/ kind_whole key = CONTROL.
Proof. unfold kind_whole. destruct (_ || _); auto. Qed.

Lemma earliest_loop_In (items : dict) (r : string) :
  forall acc pos t k,
    earliest_loop items r acc = (pos, Some (t, k)) ->
    In (t, k) items \/ snd acc = Some (t, k).
Proof.
  induction items as [|[p a] items IH]; intros acc pos t k H; simpl in H.
  - right. now rewrite H.
  - destruct (Re.search p r) as [start|].
    + destruct (start <? fst acc).
      * apply IH in H. destruct H as [H | H]; [left; now right|].
        simpl in H. injection H as -> ->. left. now left.
      * apply IH in H. destruct H as [H | H]; [left; now right | now right].
    + apply IH in H. destruct H as [H | H]; [left; now right | now right].
Qed.

(** Every command part made by the split loop carries the action of an
    entry of the table, with the kind of the inline test. *)
Lemma split_loop_commands (T : dict) :
  forall fuel r,
    Forall (fun p : part =>
              match p with
              | inl _ => True
              | inr c => exists phrase key,
                           In (phrase, key) T
                           /\ c = VoiceCommand_ (kind_inline key) key
              end)
           (split_loop T fuel r).
Proof.
  induction fuel as [|fuel IH]; intros r; simpl; [constructor|].
  destruct (truthy r); simpl; [|constructor].
  destruct (earliest_loop T r (String.length r, None)) as [pos [[t k]|]] eqn:E;
    [|repeat constructor].
  destruct (truthy t); [|repeat constructor].
  apply earliest_loop_In in E. destruct E as [E | E]; [|discriminate].
  apply Forall_app. split.
  - destruct (0 <? pos); repeat constructor.
  - constructor; [now exists t, k | apply IH].
Qed.

(** The parts loop raises at the first literal part. *)
Lemma parts_loop_literal (parts : list part) :
  forall acc s,
    In (inl s) parts ->
    parts_loop parts acc = raise (re_error "bad escape (end of pattern)").
Proof.
  induction parts as [|[txt|cmd] parts IH]; intros acc s Hin; cbn [parts_loop].
  - contradiction.
  - now rewrite _process_text_raises.
  - destruct Hin as [Hin | Hin]; [discriminate|]. now apply (IH _ s).
Qed.

Lemma parts_loop_ok (parts : list part) :
  forall acc cmds,
    parts_loop parts acc = ok cmds ->
    exists cs, parts = map inr cs /\ cmds = (acc ++ cs)%list.
Proof.
  induction parts as [|[txt|cmd] parts IH]; intros acc cmds H;
    cbn [parts_loop] in H.
  - injection H as <-. exists []. now rewrite app_nil_r.
  - rewrite _process_text_raises in H. discriminate.
  - apply IH in H. destruct H as (cs & -> & ->).
    exists (cmd :: cs). now rewrite <- app_assoc.
Qed.

(** X3.  Whatever [_parse_transcription] returns holds no Text command:
    every command returned is a Key or a Control command whose content is
    the action of an entry of the trigger table. *)
Theorem _parse_transcription_returns_no_text :
  forall (T : dict) (text : string) (cmds : list VoiceCommand),
    _parse_transcription T text = ok cmds ->
    Forall (fun c => (type c = KEY \/ type c = CONTROL)
                     /\ exists phrase, In (phrase, content c) T) cmds.
Proof.
  intros T text cmds H. unfold _parse_transcription in H.
  destruct (get T (lower text)) as [key|] eqn:E.
  - injection H as <-. constructor; [|constructor]. simpl. split.
    + apply kind_whole_cases.
    + exists (lower text). now apply get_In.
  - apply parts_loop_ok in H. destruct H as (cs & Hparts & ->). simpl.
    pose proof (split_loop_commands T (S (String.length text)) text) as Hall.
    fold (_split_by_triggers T text) in Hall. rewrite Hparts in Hall.
    rewrite Forall_map in Hall.
    eapply Forall_impl; [|exact Hall].
    intros c (phrase & key & Hin & ->). simpl. split.
    + apply kind_inline_cases.
    + now exists phrase.
Qed.

Lemma _parse_transcription_returns_no_text_witness :
  _parse_transcription VOICE_TRIGGERS "Enter tab"
  = ok [VoiceCommand_ KEY "Enter"; VoiceCommand_ KEY "Tab"]
  /\ Forall (fun c => (type c = KEY \/ type c = CONTROL)
                      /\ exists phrase, In (phrase, content c) VOICE_TRIGGERS)
            [VoiceCommand_ KEY "Enter"; VoiceCommand_ KEY "Tab"].
Proof.
  split; [reflexivity|].
  exact (_parse_transcription_returns_no_text VOICE_TRIGGERS "Enter tab" _ eq_refl).
Defined.

(** X4.  A buffer that is not a trigger as a whole and in which the
    splitter finds a literal text part makes [_parse_transcription] raise
    [re.error]: no command of that buffer is returned, not even the
    triggers around the text. *)
Theorem literal_part_makes_segmentation_raise :
  forall (T : dict) (text s : string),
    get T (lower text) = None ->
    In (inl s) (_split_by_triggers T text) ->
    _parse_transcription T text = raise (re_error "bad escape (end of pattern)").
Proof.
  intros T text s Hg Hin. unfold _parse_transcription. rewrite Hg.
  now apply (parts_loop_literal _ [] s).
Qed.

Lemma literal_part_makes_segmentation_raise_witness :
  get VOICE_TRIGGERS (lower "hello world enter") = None
  /\ In (inl "hello world") (_split_by_triggers VOICE_TRIGGERS "hello world enter")
  /\ _parse_transcription VOICE_TRIGGERS "hello world enter" = raise (re_error "bad escape (end of pattern)").
Proof.
  assert (Hin : In (inl "hello world")
                   (_split_by_triggers VOICE_TRIGGERS "hello world enter")).
  { vm_compute. now left. }
  split; [reflexivity|]. split; [exact Hin|].
  exact (literal_part_makes_segmentation_raise VOICE_TRIGGERS "hello world enter"
           "hello world" eq_refl Hin).
Defined.

End SegmentationResults.

(* ------------------------------------------------------------------ *)
(** ** Fragments that are dropped, and fragments that are lost *)

Section Fragments.
Import PyMore.

(** The converse of [search_none_no_match]. *)
Lemma no_match_search_none (q : string) :
  forall t,
    (forall pre s, t = pre ++ s -> Re.match_here q s = false) ->
    Re.search q t = None.
Proof.
  induction t as [|c t IH]; intros H.
  - simpl. now rewrite (H EmptyString EmptyString eq_refl).
  - cbn [Re.search]. rewrite (H EmptyString (String c t) eq_refl).
    rewrite IH; [reflexivity|].
    intros pre s ->. now apply (H (String c pre) s).
Qed.

Lemma match_here_app (q : string) :
  forall s b, Re.match_here q s = true -> Re.match_here q (s ++ b) = true.
Proof.
  induction q as [|x q IH]; intros [|c s] b H; simpl in *; auto; try discriminate.
  apply andb_prop in H. destruct H as [H1 H2].
  now rewrite H1, IH.
Qed.

Lemma search_none_app_r (q a b : string) :
  Re.search q (a ++ b) = None -> Re.search q b = None.
Proof.
  intros H. apply no_match_search_none. intros pre s ->.
  apply (search_none_no_match q (a ++ pre) (a ++ pre ++ s)); [exact H|].
  now rewrite append_assoc.
Qed.

Lemma search_none_app_l (q a b : string) :
  Re.search q (a ++ b) = None -> Re.search q a = None.
Proof.
  intros H. apply no_match_search_none. intros pre s ->.
  destruct (Re.match_here q s) eqn:E; [|reflexivity].
  apply (match_here_app q s b) in E.
  rewrite (search_none_no_match q pre ((pre ++ s) ++ b) (s ++ b) H) in E;
    [discriminate | now rewrite append_assoc].
Qed.

Lemma search_none_strip (q s : string) :
  Re.search q s = None -> Re.search q (strip s) = None.
Proof.
  intros H. destruct (strip_infix s) as (pre & post & E).
  rewrite E in H. apply search_none_app_r in H.
  now apply search_none_app_l in H.
Qed.

Lemma all_space_app (a b : string) :
  all_space (a ++ b) = all_space a && all_space b.
Proof.
  induction a as [|c a IH]; simpl; [reflexivity|].
  now rewrite IH, andb_assoc.
Qed.

Lemma truthy_strip_not_all_space (s : string) :
  truthy (strip s) = negb (all_space s).
Proof.
  destruct (all_space s) eqn:E.
  - now rewrite all_space_strip.
  - destruct (not_all_space_decomp s E) as (L & c & r & -> & HL & Hc).
    now rewrite strip_decomp.
Qed.

Lemma all_space_strip_stable (s : string) :
  all_space (strip s) = all_space s.
Proof.
  destruct (all_space s) eqn:E.
  - now rewrite all_space_strip.
  - destruct (not_all_space_decomp s E) as (L & c & r & -> & HL & Hc).
    rewrite strip_decomp by assumption. simpl. now rewrite Hc.
Qed.

(** The fragment is the end of the buffer it was added to. *)
Lemma appended_suffix (c : VoiceController) (text : string) :
  exists pre, appended c text = pre ++ text.
Proof.
  unfold appended. destruct (truthy (transcription_buffer c)).
  - exists (transcription_buffer c ++ " "). now rewrite append_assoc.
  - now exists (transcription_buffer c).
Qed.

(** X5.  A fragment that arrives while the engine is paused, or that is
    empty or only white space, changes nothing: not the buffer, not the
    time stamp, not the history, and the clock is not read. *)
Theorem dropped_fragment_changes_nothing :
  forall (e : Env) (c : VoiceController) (text : string) (is_final : bool),
    is_paused c = true \/ all_space text = true ->
    _handle_transcription text is_final (e, c) = (ok tt, (e, c)).
Proof.
  intros e c text is_final [H | H].
  - now apply _handle_transcription_paused.
  - unfold _handle_transcription, bind, self_, ret. simpl.
    rewrite all_space_strip by exact H. simpl.
    now destruct (is_paused c).
Qed.

Lemma dropped_fragment_changes_nothing_witness :
  all_space "   " = true
  /\ _handle_transcription "   " true (fresh_env steady_clock, listening)
     = (ok tt, (fresh_env steady_clock, listening)).
Proof.
  split; [reflexivity|].
  exact (dropped_fragment_changes_nothing (fresh_env steady_clock) listening
           "   " true (or_intror eq_refl)).
Defined.

(** X6.  Speech without trigger phrases is lost when its final fragment
    arrives: if no trigger occurs in the buffer with the fragment added,
    the final call raises [re.error], the buffer is empty afterwards, no
    command was handed to [on_command] and the history is as before. *)
Theorem final_plain_fragment_is_lost :
  forall (e : Env) (c : VoiceController) (text : string),
    is_paused c = false ->
    all_space text = false ->
    (forall p a, In (p, a) (triggers e) ->
                 Re.search p (appended c (strip text)) = None) ->
    let r := _handle_transcription text true (e, c) in
    fst r = raise (re_error "bad escape (end of pattern)")
    /\ transcription_buffer (snd (snd r)) = EmptyString
    /\ on_command_calls (snd (snd r)) = on_command_calls c
    /\ command_history (snd (snd r)) = command_history c
    /\ triggers (fst (snd r)) = triggers e.
Proof.
  intros e c text Hp Hs Hno.
  assert (Ht : truthy (strip text) = true)
    by now rewrite truthy_strip_not_all_space, Hs.
  assert (Hfrag : _check_for_triggers (triggers e) (strip text) = None).
  { apply _check_for_triggers_plain. intros p a Hin.
    destruct (appended_suffix c (strip text)) as [pre E].
    specialize (Hno p a Hin). rewrite E in Hno.
    now apply search_none_app_r in Hno. }
  assert (Hbuf : all_space (appended c (strip text)) = false).
  { destruct (appended_suffix c (strip text)) as [pre E]. rewrite E.
    rewrite all_space_app, all_space_strip_stable, Hs. apply andb_false_r. }
  assert (Hparse : _parse_transcription (triggers e) (strip (appended c (strip text)))
                   = raise (re_error "bad escape (end of pattern)")).
  { assert (Hno' : forall p a, In (p, a) (triggers e) ->
                     Re.search p (strip (appended c (strip text))) = None).
    { intros p a Hin. apply search_none_strip. now apply (Hno p a). }
    unfold _parse_transcription.
    rewrite get_lower_plain by exact Hno'.
    rewrite _split_by_triggers_plain by exact Hno'.
    rewrite truthy_strip_not_all_space, Hbuf. cbn [negb parts_loop].
    now rewrite _process_text_raises. }
  unfold _handle_transcription, bind, self_, ret. simpl.
  rewrite Hp, Ht. simpl.
  unfold update, time_time, table_, _process_transcription_buffer, bind, self_,
    ret, lift. simpl.
  rewrite Hfrag. simpl.
  assert (Hnb : truthy (appended c (strip text)) = true).
  { destruct (appended c (strip text)); [discriminate Hbuf | reflexivity]. }
  rewrite Hnb. simpl. rewrite Hparse. simpl. auto.
Qed.

Lemma final_plain_fragment_is_lost_witness :
  let c := set_transcription_buffer "git status" listening in
  let r := _handle_transcription "please" true (fresh_env steady_clock, c) in
  is_paused c = false
  /\ all_space "please" = false
  /\ fst r = raise (re_error "bad escape (end of pattern)")
  /\ transcription_buffer (snd (snd r)) = EmptyString
  /\ on_command_calls (snd (snd r)) = []
  /\ command_history (snd (snd r)) = [].
Proof.
  assert (Hno : forall p a, In (p, a) (triggers (fresh_env steady_clock)) ->
            Re.search p (appended (set_transcription_buffer "git status" listening)
                                  (strip "please")) = None).
  { intros p a Hin. simpl in Hin.
    repeat (destruct Hin as [Hin | Hin]; [inversion Hin; reflexivity|]).
    contradiction. }
  pose proof (final_plain_fragment_is_lost (fresh_env steady_clock)
                (set_transcription_buffer "git status" listening) "please"
                eq_refl eq_refl Hno) as H.
  cbv zeta in *. destruct H as (H1 & H2 & H3 & H4 & _).
  repeat split; assumption.
Defined.

End Fragments.

(* ------------------------------------------------------------------ *)
(** ** The command history *)

Section History.
Import PyMore VoiceAPI.

Lemma push_history_bounded (cmd : VoiceCommand) (c : VoiceController) :
  List.length (command_history c) <= max_history c ->
  command_history (push_history cmd c)
  = last_entries (max_history c) (command_history c ++ [cmd])%list
  /\ List.length (command_history (push_history cmd c)) <= max_history c.
Proof.
  intros H. unfold push_history, last_entries. simpl.
  rewrite List.length_app. simpl.
  destruct (max_history c <? List.length (command_history c) + 1) eqn:E.
  - apply Nat.ltb_lt in E.
    replace (List.length (command_history c) + 1 - max_history c) with 1 by lia.
    split; [reflexivity|].
    rewrite length_tl, List.length_app. simpl. lia.
  - apply Nat.ltb_ge in E.
    replace (List.length (command_history c) + 1 - max_history c) with 0 by lia.
    split; [reflexivity|].
    rewrite List.length_app. simpl. lia.
Qed.

(** What one call of [_execute_command] does to the controller. *)
Lemma _execute_command_effect (cmd : VoiceCommand) (e : Env) (c : VoiceController) :
  let x := stamped cmd (clock e (reads e)) in
  let r := _execute_command cmd (e, c) in
  fst r = ok tt
  /\ fst (snd r) = mkEnv (triggers e) (clock e) (S (reads e))
  /\ command_history (snd (snd r)) = command_history (push_history x c)
  /\ max_history (snd (snd r)) = max_history c
  /\ on_command_set (snd (snd r)) = on_command_set c
  /\ on_command_calls (snd (snd r))
     = (if on_command_set c then on_command_calls c ++ [x] else on_command_calls c)%list
  /\ transcription_buffer (snd (snd r)) = transcription_buffer c.
Proof.
  destruct c as [rec paused cb calls buf last thr hist maxh].
  destruct cmd as [ty ct cf ts].
  unfold _execute_command, stamped, bind, time_time, update, self_, ret,
    _handle_control_command, pause, resume, update, ret.
  destruct cb, ty; cbn; auto 10;
    repeat (match goal with
            | |- context [String.eqb ?a ?b] => destruct (String.eqb a b)
            end; cbn);
    auto 10.
Qed.

(** X7.  One executed command: the history keeps the most recent
    [max_history] commands, the oldest going first, and [on_command]
    receives the very command that was stored, time stamp included. *)
Theorem _execute_command_keeps_latest :
  forall (cmd : VoiceCommand) (e : Env) (c : VoiceController),
    List.length (command_history c) <= max_history c ->
    on_command_set c = true ->
    let x := stamped cmd (clock e (reads e)) in
    let c' := snd (snd (_execute_command cmd (e, c))) in
    command_history c'
    = last_entries (max_history c) (command_history c ++ [x])%list
    /\ List.length (command_history c') <= max_history c
    /\ on_command_calls c' = (on_command_calls c ++ [x])%list.
Proof.
  intros cmd e c Hb Hs.
  destruct (_execute_command_effect cmd e c) as (_ & _ & Hh & _ & _ & Hc & _).
  cbv zeta in *. rewrite Hh, Hc, Hs.
  destruct (push_history_bounded (stamped cmd (clock e (reads e))) c Hb) as [H1 H2].
  auto.
Qed.

Lemma _execute_command_keeps_latest_witness :
  let c := set_command_history [VoiceCommand_ KEY "Tab"] listening in
  let c' := snd (snd (_execute_command (VoiceCommand_ KEY "Enter")
                        (fresh_env steady_clock, c))) in
  List.length (command_history c) <= max_history c
  /\ command_history c'
     = [VoiceCommand_ KEY "Tab"; stamped (VoiceCommand_ KEY "Enter") (steady_clock 0)]
  /\ on_command_calls c' = [stamped (VoiceCommand_ KEY "Enter") (steady_clock 0)].
Proof.
  assert (Hb : List.length (command_history
                              (set_command_history [VoiceCommand_ KEY "Tab"] listening))
               <= max_history (set_command_history [VoiceCommand_ KEY "Tab"] listening)).
  { simpl. lia. }
  destruct (_execute_command_keeps_latest (VoiceCommand_ KEY "Enter")
              (fresh_env steady_clock)
              (set_command_history [VoiceCommand_ KEY "Tab"] listening) Hb eq_refl)
    as (H1 & _ & H3).
  split; [exact Hb|]. split; [exact H1 | exact H3].
Defined.






(** The pieces of the methods keep the bound. *)
Lemma keeps_bound_ret {A} (a : A) : keeps_bound (ret a).
Proof. intros s H. exact H. Qed.

Lemma keeps_bound_bind {A B} (m : M A) (k : A -> M B) :
  keeps_bound m -> (forall a, keeps_bound (k a)) -> keeps_bound (bind m k).
Proof.
  intros Hm Hk s H. unfold bind. specialize (Hm s H).
  destruct (m s) as [[a|x] s']; simpl in *; [now apply Hk | exact Hm].
Qed.

Lemma keeps_bound_update (f : VoiceController -> VoiceController) :
  (forall c, command_history (f c) = command_history c
             /\ max_history (f c) = max_history c) ->
  keeps_bound (update f).
Proof.
  intros Hf [e c] H. unfold history_bounded in *. simpl in *.
  destruct (Hf c) as [-> ->]. exact H.
Qed.

Lemma keeps_bound_read {A} (m : M A) :
  (forall s, snd (snd (m s)) = snd s) -> keeps_bound m.
Proof.
  intros Hm s H. unfold history_bounded in *. now rewrite Hm.
Qed.

Lemma keeps_bound_execute (cmd : VoiceCommand) : keeps_bound (_execute_command cmd).
Proof.
  intros [e c] H. unfold history_bounded in *. simpl in H.
  destruct (_execute_command_effect cmd e c) as (_ & _ & Hh & Hm & _).
  cbv zeta in *. rewrite Hh, Hm.
  now apply push_history_bounded.
Qed.

Lemma keeps_bound_execute_all (cmds : list VoiceCommand) :
  keeps_bound (execute_all cmds).
Proof.
  induction cmds as [|cmd cmds IH]; simpl.
  - apply keeps_bound_ret.
  - apply keeps_bound_bind; [apply keeps_bound_execute | intros _; exact IH].
Qed.

Lemma keeps_bound_handle (text : string) (is_final : bool) :
  keeps_bound (_handle_transcription text is_final).
Proof.
  unfold _handle_transcription.
  apply keeps_bound_bind; [now apply keeps_bound_read|]. intros c.
  destruct (is_paused c); [apply keeps_bound_ret|].
  destruct (negb (truthy (strip text))); [apply keeps_bound_ret|].
  apply keeps_bound_bind; [now apply keeps_bound_update|]. intros _.
  apply keeps_bound_bind; [now apply keeps_bound_read|]. intros now_.
  apply keeps_bound_bind; [now apply keeps_bound_update|]. intros _.
  apply keeps_bound_bind; [now apply keeps_bound_read|]. intros T.
  destruct (_check_for_triggers T (strip text)) as [command|].
  - apply keeps_bound_bind; [apply keeps_bound_execute|]. intros _.
    now apply keeps_bound_update.
  - apply keeps_bound_bind.
    + destruct is_final; [apply keeps_bound_ret|].
      unfold _should_process_buffer.
      apply keeps_bound_bind; [now apply keeps_bound_read|]. intros t.
      apply keeps_bound_bind; [now apply keeps_bound_read|]. intros c'.
      destruct (negb _); [apply keeps_bound_ret|].
      apply keeps_bound_bind; [now apply keeps_bound_read|]. intros T'.
      apply keeps_bound_ret.
    + intros [|]; [|apply keeps_bound_ret].
      unfold _process_transcription_buffer.
      apply keeps_bound_bind; [now apply keeps_bound_read|]. intros c'.
      destruct (negb _); [apply keeps_bound_ret|].
      apply keeps_bound_bind; [now apply keeps_bound_update|]. intros _.
      apply keeps_bound_bind; [now apply keeps_bound_read|]. intros T'.
      apply keeps_bound_bind; [now apply keeps_bound_read|]. intros cmds.
      apply keeps_bound_execute_all.
Qed.

(** X9.  Whatever fragments are delivered, and however the run ends, the
    history never grows beyond [max_history]; a controller starts within
    the bound. *)
Theorem history_stays_bounded :
  forall (fragments : list (string * bool)) (s : State),
    history_bounded s -> history_bounded (snd (deliver fragments s)).
Proof.
  induction fragments as [|[text is_final] fragments IH]; simpl.
  - intros s H. exact H.
  - apply keeps_bound_bind; [apply keeps_bound_handle | intros _; exact IH].
Qed.

Lemma history_stays_bounded_witness :
  history_bounded (fresh_env steady_clock, listening)
  /\ history_bounded
       (snd (deliver [("up arrow", false); ("hello", true); ("enter", true)]
                     (fresh_env steady_clock, listening))).
Proof.
  assert (H : history_bounded (fresh_env steady_clock, listening)).
  { unfold history_bounded. simpl. lia. }
  split; [exact H|].
  exact (history_stays_bounded _ _ H).
Defined.

End History.

(* ------------------------------------------------------------------ *)
(** ** Reading the history, and writing the trigger table *)

Section TableAndHistoryAccess.
Import PyMore VoiceAPI.

(** X10.  [get_command_history(limit)] returns the last [limit] commands
    for a positive limit (all of them when there are fewer); for the limit
    0 it returns the whole history, not the empty list; for a negative
    limit it drops that many of the oldest commands.  The controller is
    left as it is. *)
Theorem get_command_history_slices :
  forall (limit : Z) (e : Env) (c : VoiceController),
    get_command_history limit (e, c)
    = (ok (if (limit =? 0)%Z then command_history c
           else if (0 <? limit)%Z
                then last_entries (Z.to_nat limit) (command_history c)
                else skipn (Z.to_nat (- limit)) (command_history c)),
       (e, c)).
Proof.
  intros limit e c. unfold get_command_history, bind, self_, ret. simpl.
  f_equal. f_equal. unfold slice_from, last_entries.
  destruct (limit =? 0)%Z eqn:E0.
  - apply Z.eqb_eq in E0. subst. simpl.
    now rewrite Z.min_l by lia.
  - apply Z.eqb_neq in E0.
    destruct (0 <? limit)%Z eqn:Epos.
    + apply Z.ltb_lt in Epos.
      destruct (- limit <? 0)%Z eqn:En; [|apply Z.ltb_ge in En; lia].
      f_equal. lia.
    + apply Z.ltb_ge in Epos.
      destruct (- limit <? 0)%Z eqn:En; [apply Z.ltb_lt in En; lia|].
      destruct (Z.le_gt_cases (- limit) (Z.of_nat (List.length (command_history c))))
        as [Hle | Hgt].
      * now rewrite Z.min_l by lia.
      * rewrite Z.min_r by lia.
        rewrite !skipn_all2 by lia. reflexivity.
Qed.

Lemma get_set_other (d : dict) (k k' v : string) :
  String.eqb k' k = false -> get (set d k v) k' = get d k'.
Proof.
  intros H. induction d as [|[x y] d IH]; simpl.
  - now rewrite H.
  - destruct (String.eqb k x) eqn:E; simpl.
    + apply String.eqb_eq in E. subst. now rewrite H.
    + now rewrite IH.
Qed.

Lemma get_del_other (d : dict) (k k' : string) :
  String.eqb k' k = false -> get (del d k) k' = get d k'.
Proof.
  intros H. induction d as [|[x y] d IH]; simpl; [reflexivity|].
  destruct (String.eqb k x) eqn:E; simpl.
  - apply String.eqb_eq in E. subst. now rewrite H.
  - now rewrite IH.
Qed.

Lemma get_notin (d : dict) (k : string) : ~ In k (keys d) -> get d k = None.
Proof.
  induction d as [|[x y] d IH]; simpl; [reflexivity|].
  intros H. destruct (String.eqb k x) eqn:E.
  - apply String.eqb_eq in E. subst. exfalso. apply H. now left.
  - apply IH. intros Hin. apply H. now right.
Qed.

Lemma get_del_same (d : dict) (k : string) :
  NoDup (keys d) -> get (del d k) k = None.
Proof.
  induction d as [|[x y] d IH]; simpl; [reflexivity|].
  intros H. inversion H as [|? ? Hx Hd]; subst.
  destruct (String.eqb k x) eqn:E; simpl.
  - apply String.eqb_eq in E. subst. now apply get_notin.
  - rewrite E. now apply IH.
Qed.

Lemma In_keys_set (d : dict) (k v x : string) :
  In x (keys (set d k v)) -> x = k \/ In x (keys d).
Proof.
  induction d as [|[a b] d IH]; simpl.
  - intros [<- | []]. now left.
  - destruct (String.eqb k a); simpl.
    + intros [<- | H]; right; [now left | now right].
    + intros [<- | H]; [right; now left|].
      destruct (IH H) as [-> | H']; [now left | right; now right].
Qed.

Lemma NoDup_keys_set (d : dict) (k v : string) :
  NoDup (keys d) -> NoDup (keys (set d k v)).
Proof.
  induction d as [|[a b] d IH]; simpl; intros H.
  - constructor; [intros [] | constructor].
  - inversion H as [|? ? Ha Hd]; subst.
    destruct (String.eqb k a) eqn:E; simpl.
    + now constructor.
    + constructor; [|now apply IH].
      intros Hin. apply In_keys_set in Hin. destruct Hin as [-> | Hin].
      * now rewrite String.eqb_refl in E.
      * contradiction.
Qed.

Lemma In_keys_del (d : dict) (k x : string) :
  In x (keys (del d k)) -> In x (keys d).
Proof.
  induction d as [|[a b] d IH]; simpl; [tauto|].
  destruct (String.eqb k a); simpl.
  - intros H. now right.
  - intros [<- | H]; [now left | right; now apply IH].
Qed.

Lemma NoDup_keys_del (d : dict) (k : string) :
  NoDup (keys d) -> NoDup (keys (del d k)).
Proof.
  induction d as [|[a b] d IH]; simpl; intros H; [constructor|].
  inversion H as [|? ? Ha Hd]; subst.
  destruct (String.eqb k a); simpl; [exact Hd|].
  constructor; [|now apply IH].
  intros Hin. apply Ha. now apply In_keys_del in Hin.
Qed.

Lemma NoDup_keys_VOICE_TRIGGERS : NoDup (keys VOICE_TRIGGERS).
Proof.
  assert (E : nodup string_dec (keys VOICE_TRIGGERS) = keys VOICE_TRIGGERS)
    by (vm_compute; reflexivity).
  rewrite <- E. apply NoDup_nodup.
Qed.

(** X11.  Lookup after a change of the table.  After
    [add_custom_trigger(p, a)] the lower-cased phrase maps to [a] and every
    other key maps to what it mapped to; after [remove_custom_trigger(p)]
    the lower-cased phrase is no key and every other key is untouched; both
    keep the keys distinct. *)
Theorem lookup_after_add_and_remove :
  forall (e : Env) (c : VoiceController) (p a q : string),
    NoDup (keys (triggers e)) ->
    let T1 := triggers (fst (snd (add_custom_trigger p a (e, c)))) in
    let T2 := triggers (fst (snd (remove_custom_trigger p (e, c)))) in
    get T1 q = (if String.eqb q (lower p) then Some a else get (triggers e) q)
    /\ get T2 q = (if String.eqb q (lower p) then None else get (triggers e) q)
    /\ NoDup (keys T1)
    /\ NoDup (keys T2).
Proof.
  intros [T clk n] c p a q H. simpl in H.
  unfold add_custom_trigger, remove_custom_trigger, update_table. simpl.
  repeat split.
  - destruct (String.eqb q (lower p)) eqn:E.
    + apply String.eqb_eq in E. subst. apply get_set_same.
    + now apply get_set_other.
  - unfold mem. destruct (String.eqb q (lower p)) eqn:E.
    + apply String.eqb_eq in E. subst.
      destruct (get T (lower p)) eqn:G; [now apply get_del_same | exact G].
    + destruct (get T (lower p)); [now apply get_del_other | reflexivity].
  - now apply NoDup_keys_set.
  - destruct (mem T (lower p)); [now apply NoDup_keys_del | exact H].
Qed.

Lemma lookup_after_add_and_remove_witness :
  let e := fresh_env steady_clock in
  NoDup (keys (triggers e))
  /\ get (triggers (fst (snd (add_custom_trigger "Enter" "Tab" (e, init))))) "enter"
     = Some "Tab"
  /\ get (triggers (fst (snd (remove_custom_trigger "ENTER" (e, init))))) "enter"
     = None.
Proof.
  cbv zeta.
  destruct (lookup_after_add_and_remove (fresh_env steady_clock) init
              "Enter" "Tab" "enter" NoDup_keys_VOICE_TRIGGERS) as (H1 & _ & _ & _).
  destruct (lookup_after_add_and_remove (fresh_env steady_clock) init
              "ENTER" "Tab" "enter" NoDup_keys_VOICE_TRIGGERS) as (_ & H2 & _ & _).
  split; [exact NoDup_keys_VOICE_TRIGGERS|]. split; [exact H1 | exact H2].
Defined.

Lemma get_app_last (d : dict) (k v q : string) :
  get (d ++ [(k, v)])%list q
  = match get d q with
    | Some x => Some x
    | None => if String.eqb q k then Some v else None
    end.
Proof.
  induction d as [|[x y] d IH]; simpl; [reflexivity|].
  destruct (String.eqb q x); [reflexivity | exact IH].
Qed.

(** X12.  Loading custom triggers: every phrase is stored in lower case;
    of several items with the same lower-cased phrase the last one wins; a
    loaded phrase replaces the action the table had for it, and every
    other key keeps its action. *)
Theorem load_custom_triggers_lookup :
  forall (items : dict) (e : Env) (c : VoiceController) (q : string),
    let r := load_custom_triggers items (e, c) in
    fst r = ok tt
    /\ snd (snd r) = c
    /\ get (triggers (fst (snd r))) q
       = match get (rev (map (fun kv => (lower (fst kv), snd kv)) items)) q with
         | Some a => Some a
         | None => get (triggers e) q
         end.
Proof.
  induction items as [|[p a] items IH]; intros [T clk n] c q; cbv zeta.
  - simpl. auto.
  - cbn [load_custom_triggers]. unfold bind, add_custom_trigger, update_table.
    cbn [fst snd triggers clock reads].
    specialize (IH (mkEnv (set T (lower p) a) clk n) c q). cbv zeta in IH.
    destruct IH as (H1 & H2 & H3).
    split; [exact H1|]. split; [exact H2|].
    rewrite H3. cbn [map rev fst snd triggers]. rewrite get_app_last.
    destruct (get (rev (map (fun kv => (lower (fst kv), snd kv)) items)) q);
      [reflexivity|].
    destruct (String.eqb q (lower p)) eqn:E.
    + apply String.eqb_eq in E. subst. apply get_set_same.
    + now apply get_set_other.
Qed.

End TableAndHistoryAccess.

(* ------------------------------------------------------------------ *)
(** ** Which trigger the splitter takes *)

Section EarliestTrigger.

(** The search loop from any start value: either nothing among the items
    starts before the start value, or the loop ends on an entry that starts
    strictly before every entry in front of it and no later than every
    entry behind it. *)
Lemma earliest_loop_spec (r : string) :
  forall (items : dict) (pos0 : nat) (best0 : option (string * string)),
    (earliest_loop items r (pos0, best0) = (pos0, best0)
     /\ forall t' k' p', In (t', k') items -> Re.search t' r = Some p' -> pos0 <= p')
    \/ (exists I1 t k I2 pos,
          items = (I1 ++ (t, k) :: I2)%list
          /\ earliest_loop items r (pos0, best0) = (pos, Some (t, k))
          /\ Re.search t r = Some pos
          /\ pos < pos0
          /\ (forall t' k' p', In (t', k') I1 -> Re.search t' r = Some p' -> pos < p')
          /\ (forall t' k' p', In (t', k') I2 -> Re.search t' r = Some p' -> pos <= p')).
Proof.
  induction items as [|[t0 k0] items IH]; intros pos0 best0.
  - left. split; [reflexivity | intros ? ? ? []].
  - cbn [earliest_loop fst].
    destruct (Re.search t0 r) as [start|] eqn:Es.
    + destruct (start <? pos0) eqn:El.
      * apply Nat.ltb_lt in El. right.
        destruct (IH start (Some (t0, k0)))
          as [[Heq Hall] | (I1 & t & k & I2 & pos & -> & Heq & Hs & Hlt & H1 & H2)].
        -- exists [], t0, k0, items, start. repeat split; auto.
           intros ? ? ? [].
        -- exists ((t0, k0) :: I1), t, k, I2, pos. repeat split; auto; [lia|].
           intros t' k' p' [E | Hin] Hp.
           ++ injection E as <- <-. rewrite Es in Hp. injection Hp as <-. exact Hlt.
           ++ now apply (H1 t' k').
      * apply Nat.ltb_ge in El.
        destruct (IH pos0 best0)
          as [[Heq Hall] | (I1 & t & k & I2 & pos & -> & Heq & Hs & Hlt & H1 & H2)].
        -- left. split; [exact Heq|].
           intros t' k' p' [E | Hin] Hp.
           ++ injection E as <- <-. rewrite Es in Hp. injection Hp as <-. exact El.
           ++ now apply (Hall t' k').
        -- right. exists ((t0, k0) :: I1), t, k, I2, pos. repeat split; auto.
           intros t' k' p' [E | Hin] Hp.
           ++ injection E as <- <-. rewrite Es in Hp. injection Hp as <-. lia.
           ++ now apply (H1 t' k').
    + destruct (IH pos0 best0)
        as [[Heq Hall] | (I1 & t & k & I2 & pos & -> & Heq & Hs & Hlt & H1 & H2)].
      * left. split; [exact Heq|].
        intros t' k' p' [E | Hin] Hp.
        -- injection E as <- <-. rewrite Es in Hp. discriminate.
        -- now apply (Hall t' k').
      * right. exists ((t0, k0) :: I1), t, k, I2, pos. repeat split; auto.
        intros t' k' p' [E | Hin] Hp.
        -- injection E as <- <-. rewrite Es in Hp. discriminate.
        -- now apply (H1 t' k').
Qed.

(** X13.  The trigger the split loop takes is the one that starts
    earliest in the remaining text; among triggers that start at the same
    place the one registered first wins, whatever their lengths. *)
Theorem earliest_trigger_first_registered_wins :
  forall (T : dict) (r : string) (pos : nat) (t k : string),
    earliest_loop T r (String.length r, None) = (pos, Some (t, k)) ->
    exists T1 T2,
      T = (T1 ++ (t, k) :: T2)%list
      /\ Re.search t r = Some pos
      /\ (forall t' k' p', In (t', k') T1 -> Re.search t' r = Some p' -> pos < p')
      /\ (forall t' k' p', In (t', k') T2 -> Re.search t' r = Some p' -> pos <= p').
Proof.
  intros T r pos t k H.
  destruct (earliest_loop_spec r T (String.length r) None)
    as [[Heq _] | (I1 & t1 & k1 & I2 & pos1 & HT & Heq & Hs & _ & H1 & H2)].
  - rewrite Heq in H. discriminate.
  - rewrite Heq in H. injection H as <- <- <-.
    now exists I1, I2.
Qed.

Lemma earliest_trigger_first_registered_wins_witness :
  earliest_loop VOICE_TRIGGERS "please stop recording now"
                (String.length "please stop recording now", None)
  = (7, Some ("stop", "Ctrl+C"))
  /\ exists T1 T2,
       VOICE_TRIGGERS = (T1 ++ ("stop", "Ctrl+C") :: T2)%list
       /\ Re.search "stop" "please stop recording now" = Some 7
       /\ (forall t' k' p', In (t', k') T1 ->
             Re.search t' "please stop recording now" = Some p' -> 7 < p')
       /\ (forall t' k' p', In (t', k') T2 ->
             Re.search t' "please stop recording now" = Some p' -> 7 <= p').
Proof.
  split; [reflexivity|].
  exact (earliest_trigger_first_registered_wins VOICE_TRIGGERS
           "please stop recording now" 7 "stop" "Ctrl+C" eq_refl).
Defined.

End EarliestTrigger.

(* ------------------------------------------------------------------ *)
(** ** Writing to the session *)

Section Writing.
Import PyMore Terminal TerminalIO App.

Lemma substring_app_skip (a b : string) (m : nat) :
  substring (String.length a) m (a ++ b) = substring 0 m b.
Proof. induction a as [|c a IH]; simpl; [reflexivity | exact IH]. Qed.

Lemma endswith_app_self (a b : string) : endswith (a ++ b) b = true.
Proof.
  unfold endswith. rewrite length_app.
  replace (String.length a + String.length b - String.length b)
    with (String.length a) by lia.
  rewrite substring_app_skip, substring_full, String.eqb_refl.
  rewrite andb_true_r. apply Nat.leb_le. lia.
Qed.

(** X14.  What [send_command] writes on a running session that can be
    written to: one chunk, the command, with a newline added when asked
    for and not already there.  Asking for the newline always gives data
    that ends with one, asking twice adds none, and without the flag the
    command goes out unchanged. *)
Theorem send_command_writes :
  forall (io : IO) (command : string) (add_newline : bool)
         (c : TerminalController) (out : list string),
    running c = true ->
    writable c = true ->
    write io (with_newline command add_newline) = ok tt ->
    send_command io command add_newline (c, out)
    = (ok tt, (c, (out ++ [with_newline command add_newline])%list))
    /\ endswith (with_newline command true) newline = true
    /\ with_newline (with_newline command true) true = with_newline command true
    /\ with_newline command false = command.
Proof.
  intros io command add_newline c out Hr Hw Hok.
  assert (Hend : endswith (with_newline command true) newline = true).
  { unfold with_newline. simpl.
    destruct (endswith command newline) eqn:E; simpl; [exact E|].
    apply endswith_app_self. }
  split; [|split; [|split]].
  - unfold send_command. simpl. now rewrite Hr, Hw, Hok.
  - exact Hend.
  - unfold with_newline at 1. now rewrite Hend.
  - reflexivity.
Qed.

Lemma send_command_writes_witness :
  running running_session = true
  /\ writable running_session = true
  /\ send_command wire_ok "ls -la" true (running_session, [])
     = (ok tt, (running_session, ["ls -la" ++ newline])).
Proof.
  destruct (send_command_writes wire_ok "ls -la" true running_session []
              eq_refl eq_refl eq_refl) as [H _].
  split; [reflexivity|]. split; [reflexivity | exact H].
Defined.




(** What one write of the application can do: it raises only what the
    print of the error line raises, it leaves the running flag, the process
    and the descriptor alone, and the child receives nothing or the chunk. *)
Lemma terminal_send_command_frame :
  forall (con : Console) (io : IO) (command : string) (add_newline : bool) (w : Wire),
    let r := terminal_send_command con io command add_newline w in
    (fst r = ok tt \/ exists line e, con line = raise e /\ fst r = raise e)
    /\ running (fst (snd r)) = running (fst w)
    /\ process (fst (snd r)) = process (fst w)
    /\ master_fd (fst (snd r)) = master_fd (fst w)
    /\ (snd (snd r) = snd w
        \/ snd (snd r) = (snd w ++ [with_newline command add_newline])%list).
Proof.
  intros con io command add_newline [c out]. cbv zeta.
  unfold terminal_send_command, report. cbn [fst snd].
  destruct (running c) eqn:Hr; cbn [negb fst snd]; [|repeat apply conj; auto].
  destruct (writable c); cbn [fst snd]; [|repeat apply conj; auto].
  destruct (write io (with_newline command add_newline)) as [[]|e];
    cbn [fst snd]; [repeat apply conj; auto|].
  destruct (on_error_set c); cbn [fst snd running process master_fd];
    [|repeat apply conj; auto].
  repeat apply conj; auto.
  destruct (con (TerminalError ("Error sending command: " ++ str_exn e)))
    as [[]|e'] eqn:Hp; cbn [exc_bind]; [left; reflexivity|].
  right. exists (TerminalError ("Error sending command: " ++ str_exn e)), e'.
  split; [exact Hp | reflexivity].
Qed.

(** X17.  A Key command whose content is not a name of [key_map] changes
    nothing: its line is printed, [send_key] drops it, nothing is written
    and neither controller is touched; the call returns exactly when the
    print does. *)
Theorem unknown_key_command_is_ignored :
  forall (con : Console) (io : IO) (command : VoiceCommand) (a : AppState),
    type command = KEY ->
    lookup key_map (content command) = None ->
    on_command con io command a
    = (exc_bind (con (KeyLine (content command))) (fun _ => ok tt), a).
Proof.
  intros con io command [v w] Ht Hk.
  unfold on_command, terminal_send_key. rewrite Ht, Hk.
  destruct (con (KeyLine (content command))); reflexivity.
Qed.

Lemma unknown_key_command_is_ignored_witness :
  _parse_transcription VOICE_TRIGGERS "clear screen" = ok [VoiceCommand_ KEY "CLEAR"]
  /\ on_command plain_console wire_ok (VoiceCommand_ KEY "CLEAR")
                (mkApp listening (running_session, []))
     = (ok tt, mkApp listening (running_session, [])).
Proof.
  split; [reflexivity|].
  exact (unknown_key_command_is_ignored plain_console wire_ok
           (VoiceCommand_ KEY "CLEAR")
           (mkApp listening (running_session, [])) eq_refl eq_refl).
Defined.

(** The routine goals of the dispatcher: a component that is left as it
    was, a branch that is not the one at hand, a print that raised. *)
Ltac dispatcher_cases Hret :=
  repeat apply conj;
  try first
    [ assumption
    | reflexivity
    | left; reflexivity
    | right; eexists; eexists; split; [eassumption | reflexivity]
    | let H := fresh in intros H; discriminate H
    | let H := fresh in intros H; exfalso; apply H; reflexivity
    | let H := fresh in intros H; apply Hret, H
    | let H := fresh in intros H;
      match goal with
      | Hp : _ = raise _ |- _ => rewrite H in Hp; discriminate Hp
      end
    | let H := fresh in intros H; left; reflexivity ].

(** X18.  What the dispatcher can and cannot do.  [on_command] raises only
    when a console print raises, and then with that exception; when every
    line prints it returns.  In every case it leaves the running flag, the
    process and the descriptors of the terminal alone; a Text command adds
    at most its own content, without a newline, to what reached the child,
    and nothing when its line does not print; and only a Control command
    can touch the voice controller. *)
Theorem on_command_is_safe :
  forall (con : Console) (io : IO) (command : VoiceCommand) (a : AppState),
    let r := on_command con io command a in
    (fst r = ok tt \/ exists line e, con line = raise e /\ fst r = raise e)
    /\ ((forall line, con line = ok tt) -> fst r = ok tt)
    /\ running (fst (wire (snd r))) = running (fst (wire a))
    /\ process (fst (wire (snd r))) = process (fst (wire a))
    /\ master_fd (fst (wire (snd r))) = master_fd (fst (wire a))
    /\ (type command = TEXT ->
        snd (wire (snd r)) = snd (wire a)
        \/ (con (Typing (content command)) = ok tt
            /\ snd (wire (snd r)) = (snd (wire a) ++ [content command])%list))
    /\ (type command <> CONTROL -> voice (snd r) = voice a).
Proof.
  intros con io [ty ct cf ts] [v [c out]].
  pose proof (terminal_send_command_frame con io) as Hsend.
  cbv zeta in Hsend. cbv zeta.
  unfold on_command, handle_control_command, terminal_send_key.
  cbn [type content wire voice fst snd].
  assert (Hcon : forall m, {con m = ok tt} + {exists e, con m = raise e}).
  { intros m. destruct (con m) as [[]|e]; [left; reflexivity | right; eauto]. }
  assert (Hret : (forall line, con line = ok tt) ->
                 forall x b w, fst (terminal_send_command con io x b w) = ok tt).
  { intros Hall x b w. destruct (Hsend x b w) as ([H|(l & e & Hl & _)] & _);
      [exact H | rewrite Hall in Hl; discriminate Hl]. }
  destruct ty.
  - (* TEXT *)
    destruct (Hsend ct false (c, out)) as (Hres & Hrun & Hproc & Hfd & Hout).
    cbn [with_newline andb fst snd] in Hout.
    destruct (Hcon (Typing ct)) as [Hp|[e Hp]]; rewrite Hp;
      cbn [fst snd wire voice]; dispatcher_cases Hret.
    destruct Hout as [Ho|Ho];
      [left; exact Ho | right; split; [reflexivity | exact Ho]].
  - (* KEY *)
    destruct (Hcon (KeyLine ct)) as [Hp|[e Hp]]; rewrite Hp;
      cbn [fst snd wire voice]; [|dispatcher_cases Hret].
    destruct (lookup key_map ct) as [bytes|]; cbn [fst snd wire voice];
      [|dispatcher_cases Hret].
    destruct (Hsend bytes false (c, out)) as (Hres & Hrun & Hproc & Hfd & _).
    dispatcher_cases Hret.
  - (* CONTROL *)
    destruct (Hcon (ControlLine ct)) as [Hp|[e Hp]]; rewrite Hp;
      cbn [fst snd wire voice]; [|dispatcher_cases Hret].
    destruct (String.eqb ct "CLEAR"); cbn [fst snd wire voice].
    { match goal with
      | |- context [terminal_send_command con io ?x ?b ?w] =>
          destruct (Hsend x b w) as (Hres & Hrun & Hproc & Hfd & _)
      end.
      dispatcher_cases Hret. }
    destruct (String.eqb ct "START_RECORDING"); cbn [fst snd wire voice].
    { destruct (Hcon RecordingResumed) as [Hq|[e Hq]]; rewrite Hq;
        cbn [exc_bind]; dispatcher_cases Hret. }
    destruct (String.eqb ct "STOP_RECORDING"); cbn [fst snd wire voice].
    { destruct (Hcon RecordingPaused) as [Hq|[e Hq]]; rewrite Hq;
        cbn [exc_bind]; dispatcher_cases Hret. }
    dispatcher_cases Hret.
  - (* SYSTEM *)
    cbn [fst snd wire voice]. dispatcher_cases Hret.
Qed.

Lemma on_command_is_safe_witness :
  let a := mkApp listening (running_session, []) in
  let r := on_command plain_console wire_ok (VoiceCommand_ TEXT "git status") a in
  fst r = ok tt
  /\ snd (wire (snd r)) = ["git status"]
  /\ voice (snd r) = listening.
Proof.
  pose proof (on_command_is_safe plain_console wire_ok
                (VoiceCommand_ TEXT "git status")
                (mkApp listening (running_session, []))) as H.
  cbv zeta in *. destruct H as (_ & H2 & _ & _ & _ & _ & H7).
  split; [apply H2; intros line; reflexivity|]. split; [reflexivity|].
  apply H7. discriminate.
Defined.

End Writing.

(* ------------------------------------------------------------------ *)
(** ** The life of a terminal session *)

Section Lifecycle.
Import PyMore Terminal TerminalIO.

(** The first test of [start_terminal]. *)
Lemma start_terminal_while_running (os : OS) (c : TerminalController)
      (command terminal_type_arg : option string) :
  running c = true ->
  start_terminal os command terminal_type_arg c = (ok false, c).
Proof.
  intros H. unfold start_terminal, bind, self_, ret. simpl. now rewrite H.
Qed.

(** X19.  [start_terminal] refuses, returning [False] and changing
    nothing, when the session is already running and when the platform has
    no entry in [TERMINALS]. *)
Theorem start_terminal_refuses :
  forall (os : OS) (c : TerminalController) (command terminal_type_arg : option string),
    running c = true \/ lookup TERMINALS (system c) = None ->
    start_terminal os command terminal_type_arg c = (ok false, c).
Proof.
  intros os c command tt H.
  unfold start_terminal, bind, self_, ret. simpl.
  destruct (running c) eqn:Hr; [reflexivity|].
  destruct H as [H | H]; [discriminate|].
  unfold terminal_command, get_available_terminals. rewrite H. simpl.
  destruct (or_else tt (terminal_type c)) as [t|]; [|reflexivity].
  destruct (truthy t); reflexivity.
Qed.

Lemma start_terminal_refuses_witness :
  lookup TERMINALS (system on_freebsd) = None
  /\ start_terminal healthy_linux (Some "claude") None on_freebsd
     = (ok false, on_freebsd)
  /\ start_terminal healthy_linux (Some "claude") None running_session
     = (ok false, running_session).
Proof.
  split; [reflexivity|]. split.
  - exact (start_terminal_refuses healthy_linux on_freebsd (Some "claude") None
             (or_intror eq_refl)).
  - exact (start_terminal_refuses healthy_linux running_session (Some "claude") None
             (or_introl eq_refl)).
Defined.

(** X20.  A terminal named in the call is taken from the table of the
    platform without any check that it is installed, and the choice made at
    construction is not consulted; a name the platform does not know falls
    back to the first installed terminal of the table. *)
Theorem named_terminal_is_taken_unchecked :
  forall (os : OS) (c : TerminalController) (name : string)
         (table : list (string * list string)),
    truthy name = true ->
    lookup TERMINALS (system c) = Some table ->
    terminal_command os c (Some name)
    = match lookup table name with
      | Some cmd => Some cmd
      | None =>
          match get_available_terminals os (system c) with
          | [] => None
          | first :: _ => lookup table first
          end
      end.
Proof.
  intros os c name table Ht Hl.
  unfold terminal_command, or_else. rewrite Ht, Hl, Ht. reflexivity.
Qed.

Lemma named_terminal_is_taken_unchecked_witness :
  which bare_host "xterm" = false
  /\ terminal_type linux_kitty = Some "kitty"
  /\ terminal_command bare_host linux_kitty (Some "xterm")
     = Some ["xterm"; "-e"; "bash"; "-c"]
  /\ terminal_command bare_host linux_kitty (Some "warp") = None.
Proof.
  assert (Hl : lookup TERMINALS (system linux_kitty)
               = Some [ ("gnome-terminal", ["gnome-terminal"; "--"; "bash"; "-c"]);
                        ("konsole", ["konsole"; "-e"; "bash"; "-c"]);
                        ("xterm", ["xterm"; "-e"; "bash"; "-c"]);
                        ("terminator", ["terminator"; "-e"; "bash"; "-c"]);
                        ("alacritty", ["alacritty"; "-e"; "bash"; "-c"]);
                        ("kitty", ["kitty"; "bash"; "-c"]);
                        ("xfce4-terminal", ["xfce4-terminal"; "-e"; "bash"; "-c"]);
                        ("mate-terminal", ["mate-terminal"; "-e"; "bash"; "-c"]);
                        ("lxterminal", ["lxterminal"; "-e"; "bash"; "-c"]);
                        ("tilix", ["tilix"; "-e"; "bash"; "-c"]) ])
    by reflexivity.
  split; [reflexivity|]. split; [reflexivity|]. split.
  - exact (named_terminal_is_taken_unchecked bare_host linux_kitty "xterm" _
             eq_refl Hl).
  - exact (named_terminal_is_taken_unchecked bare_host linux_kitty "warp" _
             eq_refl Hl).
Defined.

(** X21.  On Windows a terminal command always resolves: [cmd] and
    [powershell] pass the existence test without being looked for, so
    [start_terminal] never gives up there for want of a terminal. *)
Theorem windows_always_resolves :
  forall (os : OS) (c : TerminalController) (terminal_type_arg : option string),
    system c = "Windows" ->
    (exists rest, get_available_terminals os (system c)
                  = "cmd" :: "powershell" :: rest)
    /\ exists cmd, terminal_command os c terminal_type_arg = Some cmd.
Proof.
  intros os c tt H.
  assert (Ha : exists rest, get_available_terminals os (system c)
                            = "cmd" :: "powershell" :: rest).
  { rewrite H. unfold get_available_terminals. simpl. eexists. reflexivity. }
  split; [exact Ha|].
  destruct Ha as [rest Ha].
  unfold terminal_command. rewrite Ha. rewrite H. simpl.
  destruct (or_else tt (terminal_type c)) as [t|]; [|eexists; reflexivity].
  destruct (truthy t); [|eexists; reflexivity].
  repeat (match goal with
          | |- context [String.eqb ?a ?b] => destruct (String.eqb a b)
          end; [eexists; reflexivity|]).
  eexists. reflexivity.
Qed.

Lemma windows_always_resolves_witness :
  exists cmd,
    terminal_command bare_host (Terminal.init "Windows" None) None = Some cmd.
Proof.
  destruct (windows_always_resolves bare_host (Terminal.init "Windows" None) None
              eq_refl) as [_ H].
  exact H.
Defined.



(** What [stop_terminal] leaves behind when it returns. *)
Lemma stop_terminal_returns (os : OS) (c c' : TerminalController) :
  stop_terminal os c = (ok tt, c') ->
  running c' = false
  /\ process c' = None
  /\ fd_truthy (master_fd c') = None
  /\ fd_truthy (slave_fd c') = None.
Proof.
  destruct c as [sys ty pr pi ru mfd sfd es ec prn].
  unfold stop_terminal, bind, self_, update, ret, try_except, lift. cbn.
  destruct pr as [p|]; cbn.
  - destruct (send_signal os p); cbn;
      (destruct (wait os p); cbn; [|intros H; discriminate]);
      (destruct (fd_truthy mfd) as [fd|] eqn:Em; cbn;
       [destruct (close os fd); cbn; [|intros H; discriminate]|]);
      (destruct (fd_truthy sfd) as [fd'|] eqn:Es; cbn;
       [destruct (close os fd'); cbn; [|intros H; discriminate]|]);
      intros H; injection H as <-; cbn; auto.
  - (destruct (fd_truthy mfd) as [fd|] eqn:Em; cbn;
     [destruct (close os fd); cbn; [|intros H; discriminate]|]);
      (destruct (fd_truthy sfd) as [fd'|] eqn:Es; cbn;
       [destruct (close os fd'); cbn; [|intros H; discriminate]|]);
      intros H; injection H as <-; cbn; auto.
Qed.

(** X23.  [stop_terminal] is idempotent: once a call has returned, a
    second call returns too and changes nothing, whatever the operating
    system would answer. *)
Theorem stop_terminal_idempotent :
  forall (os os' : OS) (c c' : TerminalController),
    stop_terminal os c = (ok tt, c') ->
    stop_terminal os' c' = (ok tt, c').
Proof.
  intros os os' c c' H.
  destruct (stop_terminal_returns os c c' H) as (Hr & Hp & Hm & Hs).
  rewrite stop_terminal_stopped by assumption.
  destruct c' as [sys ty pr pi ru mfd sfd es ec prn]. simpl in Hr. subst.
  reflexivity.
Qed.

Lemma stop_terminal_idempotent_witness :
  stop_terminal healthy_linux running_session
  = (ok tt, set_slave_fd None
              (set_master_fd None (set_process None (set_running false running_session))))
  /\ stop_terminal stubborn_child
       (set_slave_fd None
          (set_master_fd None (set_process None (set_running false running_session))))
     = (ok tt, set_slave_fd None
                 (set_master_fd None
                    (set_process None (set_running false running_session)))).
Proof.
  split; [reflexivity|].
  exact (stop_terminal_idempotent healthy_linux stubborn_child running_session _
           eq_refl).
Defined.

(** X24.  However [stop_terminal] ends, by returning or by raising, the
    running flag is off afterwards and [is_running] answers no. *)
Theorem stop_terminal_always_clears_running :
  forall (os : OS) (io : IO) (c : TerminalController),
    running (snd (stop_terminal os c)) = false
    /\ is_running io (snd (stop_terminal os c)) = false.
Proof.
  intros os io c.
  assert (H : running (snd (stop_terminal os c)) = false).
  { destruct c as [sys ty pr pi ru mfd sfd es ec prn].
    unfold stop_terminal, bind, self_, update, ret, try_except, lift. cbn.
    destruct pr as [p|]; cbn;
      [destruct (send_signal os p); cbn; (destruct (wait os p); cbn; [|reflexivity])|];
      (destruct (fd_truthy mfd) as [fd|]; cbn;
       [destruct (close os fd); cbn; [|reflexivity]|]);
      (destruct (fd_truthy sfd) as [fd'|]; cbn;
       [destruct (close os fd'); cbn|]);
      reflexivity. }
  split; [exact H|]. unfold is_running. now rewrite H.
Qed.

(** X25.  A failure after the child was created.  When the child is
    spawned and starting the reader and writer threads then raises,
    [start_terminal] returns [False] although the running flag is already
    on and the child is kept; a second [start_terminal] is refused. *)
Theorem thread_failure_leaves_session_running :
  forall (os : OS) (c : TerminalController) (command terminal_type_arg : option string)
         (cmd : list string) (fds : nat * nat) (p : Process) (e : exn),
    running c = false ->
    terminal_command os c terminal_type_arg = Some cmd ->
    openpty os = ok fds ->
    (forall full, Popen os full = ok p) ->
    (forall fd, set_nonblocking os fd = ok tt) ->
    start_threads os = raise e ->
    let r := start_terminal os command terminal_type_arg c in
    fst r = ok false
    /\ running (snd r) = true
    /\ process (snd r) = Some p
    /\ start_terminal os command terminal_type_arg (snd r) = (ok false, snd r).
Proof.
  intros os c command ttype cmd fds p e Hr Hc Hpty Hpop Hnb Hth.
  assert (H : fst (start_terminal os command ttype c) = ok false
              /\ running (snd (start_terminal os command ttype c)) = true
              /\ process (snd (start_terminal os command ttype c)) = Some p).
  { unfold start_terminal, spawn, _start_unix_terminal, _start_windows_terminal,
      try_except, bind, self_, update, lift, ret.
    cbn. rewrite Hr, Hc. cbn.
    destruct (is_unix (system c)); cbn.
    - rewrite Hpty. cbn. rewrite Hpop. cbn. rewrite Hnb, Hth. cbn. auto.
    - rewrite Hpop. cbn. rewrite Hth. cbn. auto. }
  cbv zeta. destruct H as (H1 & H2 & H3).
  repeat split; try assumption.
  now apply start_terminal_while_running.
Qed.

Lemma thread_failure_leaves_session_running_witness :
  let r := start_terminal no_more_threads (Some "claude") None linux_kitty in
  running linux_kitty = false
  /\ fst r = ok false
  /\ running (snd r) = true
  /\ process (snd r) = Some 4242.
Proof.
  pose proof (thread_failure_leaves_session_running no_more_threads linux_kitty
                (Some "claude") None ["kitty"; "bash"; "-c"] (3, 4) 4242
                (OSError "can't start new thread")
                eq_refl eq_refl eq_refl (fun _ => eq_refl) (fun _ => eq_refl) eq_refl)
    as H.
  cbv zeta in *. destruct H as (H1 & H2 & H3 & _).
  repeat split; assumption.
Defined.

End Lifecycle.

(* ------------------------------------------------------------------ *)
(** ** Saving, splitting and accumulating *)

Section MoreOfTheEngine.
Import PyMore VoiceAPI.

(** X26.  [save_settings] never stores a custom trigger: even right after
    [add_custom_trigger], when the table does hold the new phrase, the
    [custom_triggers] entry it computes is empty. *)
Theorem save_settings_stores_no_custom_trigger :
  forall (e : Env) (c : VoiceController) (p a : string),
    let s1 := snd (add_custom_trigger p a (e, c)) in
    get (triggers (fst s1)) (lower p) = Some a
    /\ saved_custom_triggers s1 = (ok [], s1).
Proof.
  intros e c p a. cbv zeta. split.
  - unfold add_custom_trigger, update_table. simpl. apply get_set_same.
  - pose proof (saved_custom_triggers_empty (snd (add_custom_trigger p a (e, c)))) as H.
    destruct (saved_custom_triggers (snd (add_custom_trigger p a (e, c))))
      as [r s'] eqn:E.
    simpl in H. subst.
    unfold saved_custom_triggers, bind, table_, ret in E. simpl in E.
    now injection E as _ <-.
Qed.

(** X27.  The [while] loop of [_split_by_triggers] ends: every turn that
    goes on shortens the remaining text, so one turn more than the text has
    characters is enough, and any larger number of turns gives the same
    parts. *)
Theorem _split_by_triggers_terminates :
  forall (T : dict) (text : string) (turns : nat),
    String.length text < turns ->
    split_loop T turns text = _split_by_triggers T text.
Proof.
  intros T text turns H. unfold _split_by_triggers.
  apply split_loop_fuel; lia.
Qed.

Lemma _split_by_triggers_terminates_witness :
  String.length "ls enter" < 1000
  /\ split_loop VOICE_TRIGGERS 1000 "ls enter"
     = [inl "ls"; inr (VoiceCommand_ KEY "Enter")].
Proof.
  assert (H : String.length "ls enter" < 1000) by (simpl; lia).
  split; [exact H|].
  rewrite (_split_by_triggers_terminates VOICE_TRIGGERS "ls enter" 1000 H).
  reflexivity.
Defined.

Lemma ends_with_trigger_plain (T : dict) (buffer : string) :
  (forall p a, In (p, a) T -> Re.search p buffer = None) ->
  ends_with_trigger T buffer = false.
Proof.
  intros H. unfold ends_with_trigger.
  destruct (existsb _ T) eqn:E; [|reflexivity].
  apply existsb_exists in E. destruct E as ([p a] & Hin & He). simpl in He.
  apply endswith_infix in He. destruct He as (pre & post & He).
  exfalso. apply (infix_of_strip_lower_found p buffer pre post He).
  now apply (H p a).
Qed.

(** X28.  Speech without trigger phrases only accumulates while its
    fragments are not final: if no trigger occurs in the buffer with the
    fragment added, and the two clock readings of the call are no more than
    the silence threshold apart, the call returns, the buffer is the old
    one with the trimmed fragment joined by one space, and no command is
    emitted. *)
Theorem plain_fragment_accumulates :
  forall (e : Env) (c : VoiceController) (text : string),
    is_paused c = false ->
    all_space text = false ->
    (forall p a, In (p, a) (triggers e) ->
                 Re.search p (appended c (strip text)) = None) ->
    (clock e (S (reads e)) - clock e (reads e) <= silence_threshold c)%Q ->
    let r := _handle_transcription text false (e, c) in
    fst r = ok tt
    /\ transcription_buffer (snd (snd r)) = appended c (strip text)
    /\ last_transcription_time (snd (snd r)) = clock e (reads e)
    /\ on_command_calls (snd (snd r)) = on_command_calls c
    /\ command_history (snd (snd r)) = command_history c.
Proof.
  intros e c text Hp Hs Hno Hq.
  assert (Ht : truthy (strip text) = true)
    by now rewrite truthy_strip_not_all_space, Hs.
  assert (Hfrag : _check_for_triggers (triggers e) (strip text) = None).
  { apply _check_for_triggers_plain. intros p a Hin.
    destruct (appended_suffix c (strip text)) as [pre E].
    specialize (Hno p a Hin). rewrite E in Hno.
    now apply search_none_app_r in Hno. }
  cbv zeta.
  rewrite _handle_transcription_buffers;
    [simpl; auto | exact Hp | exact Ht | exact Hfrag | | exact Hq].
  now apply ends_with_trigger_plain.
Qed.

Lemma plain_fragment_accumulates_witness :
  let c := set_transcription_buffer "git" listening in
  let r := _handle_transcription " status " false (fresh_env steady_clock, c) in
  is_paused c = false
  /\ fst r = ok tt
  /\ transcription_buffer (snd (snd r)) = "git status"
  /\ on_command_calls (snd (snd r)) = [].
Proof.
  assert (Hno : forall p a, In (p, a) (triggers (fresh_env steady_clock)) ->
            Re.search p (appended (set_transcription_buffer "git" listening)
                                  (strip " status ")) = None).
  { intros p a Hin. simpl in Hin.
    repeat (destruct Hin as [Hin | Hin]; [inversion Hin; reflexivity|]).
    contradiction. }
  assert (Hq : (clock (fresh_env steady_clock) (S (reads (fresh_env steady_clock)))
                - clock (fresh_env steady_clock) (reads (fresh_env steady_clock))
                <= silence_threshold (set_transcription_buffer "git" listening))%Q).
  { vm_compute. discriminate. }
  pose proof (plain_fragment_accumulates (fresh_env steady_clock)
                (set_transcription_buffer "git" listening) " status "
                eq_refl eq_refl Hno Hq) as H.
  cbv zeta in *. destruct H as (H1 & H2 & _ & H4 & _).
  repeat split; assumption.
Defined.

End MoreOfTheEngine.
